(** * pylineprof: the instrumenter, the accumulator and the dashboard

    A shallow embedding of [lineprof.py] and the properties of its
    instrumentation pass ([annotate]), of the timing accumulator
    ([LineProf]) and of the terminal dashboard ([Reporter]).

    Conventions of the embedding:
    - Python [int] is [Z]; Python [float] is an exact rational [Qc]
      (rounding, infinities and NaN are outside the model);
    - a Python list is a [list], indexed and updated by position;
    - a [dict] is a [gmap]; a [collections.defaultdict] is a [gmap] with
      its [default_factory], living in a store of objects, because the
      accumulator hands the very same objects to the dashboard;
    - a raised exception is an explicit result; the state reached when it
      is raised is kept. *)

From Stdlib Require Import ZArith QArith Qcanon String Ascii List Lia.
From stdpp Require Import base tactics option list numbers strings pretty
  functions gmap.

#[local] Set Warnings "-register-all".

Open Scope string_scope.
Open Scope list_scope.
Open Scope Z_scope.

(** ** The statement nodes of the [ast] module

    The classes are those of the statement grammar.  A node keeps its
    class, its [lineno], the source text of the fields [annotate] never
    looks at ([src]), and the nested blocks its class has. *)

Module ast.

(** Classes of statements without a nested block. *)
Inductive simple_class : Set :=
| Expr | Assign | Delete | AugAssign | Import | ImportFrom
| Return | Break | Continue
| AnnAssign | Raise | Assert | Global | Nonlocal | Pass.

(** Classes with the fields [body] and [orelse]. *)
Inductive branch_class : Set := If | While | For | AsyncFor.

(** Classes with the single field [body]. *)
Inductive scope_class : Set :=
| FunctionDef | ClassDef | With | AsyncFunctionDef | AsyncWith.

(** [ast.ExceptHandler], over the type of statements. *)
Record handler (S : Type) : Type := ExceptHandler
  { h_lineno : Z; h_src : string; h_body : list S }.
Arguments ExceptHandler {S} _ _ _.
Arguments h_lineno {S} _.
Arguments h_src {S} _.
Arguments h_body {S} _.

Inductive stmt : Type :=
| Simple (c : simple_class) (lineno : Z) (src : string)
| Branch (c : branch_class) (lineno : Z) (src : string)
         (body orelse : list stmt)
| Try (lineno : Z) (body : list stmt) (handlers : list (handler stmt))
      (orelse finalbody : list stmt)
| Scope (c : scope_class) (lineno : Z) (src : string) (body : list stmt).

Definition lineno_of (s : stmt) : Z :=
  match s with
  | Simple _ n _ | Branch _ n _ _ _ | Try n _ _ _ _ | Scope _ n _ _ => n
  end.

(** What [type(node)] evaluates to. *)
Inductive node_type : Set :=
| TSimple (c : simple_class)
| TBranch (c : branch_class)
| TTry
| TScope (c : scope_class).

Definition type_of (s : stmt) : node_type :=
  match s with
  | Simple c _ _ => TSimple c
  | Branch c _ _ _ _ => TBranch c
  | Try _ _ _ _ _ => TTry
  | Scope c _ _ _ => TScope c
  end.

End ast.

Import ast.

(** ** [annotate] *)

(** [isinstance(node, (ast.Expr, ast.Assign, ast.Delete, ast.AugAssign,
    ast.Import, ast.ImportFrom))] *)
Definition is_measurable (c : simple_class) : bool :=
  match c with
  | Expr | Assign | Delete | AugAssign | Import | ImportFrom => true
  | _ => false
  end.

(** [isinstance(node, (ast.Return, ast.Break, ast.Continue))] *)
Definition is_exit (c : simple_class) : bool :=
  match c with
  | Return | Break | Continue => true
  | _ => false
  end.

(** [isinstance(node, (ast.If, ast.While, ast.For))] *)
Definition is_branching (c : branch_class) : bool :=
  match c with
  | If | While | For => true
  | AsyncFor => false
  end.

(** [isinstance(node, (ast.FunctionDef, ast.ClassDef, ast.With))] *)
Definition is_scope (c : scope_class) : bool :=
  match c with
  | FunctionDef | ClassDef | With => true
  | AsyncFunctionDef | AsyncWith => false
  end.

(** [ast.parse(f'_lineprof.<method>({lineno})').body[0]]: the parser is
    given one line of text, so the node is an expression statement on
    line 1 whose source is that text. *)
Definition hook_call (method : string) (lineno : Z) : stmt :=
  Simple Expr 1 ("_lineprof." +:+ method +:+ "(" +:+ pretty lineno +:+ ")").

Definition line_pre_call : Z → stmt := hook_call "line_pre".
Definition line_post_call : Z → stmt := hook_call "line_post".
Definition exit_pre_call : Z → stmt := hook_call "exit_pre".

(** [list.insert(i, x)] for [0 <= i]: past the end it appends. *)
Definition list_insert_at {A} (i : nat) (x : A) (l : list A) : list A :=
  take i l ++ x :: drop i l.

(** The exceptions the modelled code can raise. *)
Inductive exception : Set :=
| IndexError
| KeyError (key : Z)
| ZeroDivisionError.

(** How a call ends.  [Exhausted] belongs to the model only: the recursion
    of [annotate] on nested blocks is cut by a bound on the nesting, and
    [annotate_returns] shows that a bound above the nesting depth of the
    block is never reached. *)
Inductive outcome (A : Type) : Type :=
| Done (a : A)
| Raised (e : exception)
| Exhausted.
Arguments Done {A} _.
Arguments Raised {A} _.
Arguments Exhausted {A}.

#[export] Instance outcome_bind : MBind outcome := λ A B k m,
  match m with
  | Done a => k a
  | Raised e => Raised e
  | Exhausted => Exhausted
  end.

#[export] Instance outcome_fmap : FMap outcome := λ A B f m,
  match m with
  | Done a => Done (f a)
  | Raised e => Raised e
  | Exhausted => Exhausted
  end.

(** [for i in xs: s = f(i, s)] *)
Fixpoint for_in {S} (xs : list nat) (f : nat → S → outcome S) (s : S)
  : outcome S :=
  match xs with
  | [] => Done s
  | i :: xs' => s' ← f i s; for_in xs' f s'
  end.

(** The variables of one activation of [annotate]: the list it was given
    (mutated in place), [offset], and what it printed so far. *)
Record frame : Type := Frame
  { fr_body : list stmt; fr_offset : nat; fr_stdout : list node_type }.

Section annotate_body.
(** The recursive call: the block with its hooks, and what was printed. *)
Variable rec : list stmt → outcome (list stmt * list node_type).

(** [for handler in node.handlers: annotate(handler.body)] *)
Fixpoint annotate_handlers (hs : list (handler stmt))
  : outcome (list (handler stmt) * list node_type) :=
  match hs with
  | [] => Done ([], [])
  | h :: hs' =>
      '(b, w) ← rec (h_body h);
      '(hs'', w') ← annotate_handlers hs';
      Done (ExceptHandler (h_lineno h) (h_src h) b :: hs'', w ++ w')
  end.

(** One turn of the loop of [annotate]. *)
Definition annotate_turn (i : nat) (f : frame) : outcome frame :=
  let idx := (i + fr_offset f)%nat in
  match fr_body f !! idx with
  | None => Raised IndexError
  | Some node =>
      match node with
      | Simple c lineno _ =>
          if is_measurable c then
            let pre := line_pre_call lineno in
            let post := line_post_call lineno in
            let body1 := list_insert_at idx pre (fr_body f) in
            let body2 := list_insert_at (idx + 2) post body1 in
            Done (Frame body2 (fr_offset f + 2) (fr_stdout f))
          else if is_exit c then
            let pre := exit_pre_call lineno in
            let body1 := list_insert_at idx pre (fr_body f) in
            Done (Frame body1 (fr_offset f + 1) (fr_stdout f))
          else
            Done (Frame (fr_body f) (fr_offset f)
                        (fr_stdout f ++ [type_of node]))
      | Branch c lineno src body orelse =>
          if is_branching c then
            '(body', w1) ← rec body;
            '(orelse', w2) ← rec orelse;
            Done (Frame (<[idx := Branch c lineno src body' orelse']>
                           (fr_body f))
                        (fr_offset f) (fr_stdout f ++ w1 ++ w2))
          else
            Done (Frame (fr_body f) (fr_offset f)
                        (fr_stdout f ++ [type_of node]))
      | Try lineno body handlers orelse finalbody =>
          '(body', w1) ← rec body;
          '(orelse', w2) ← rec orelse;
          '(handlers', w3) ← annotate_handlers handlers;
          '(finalbody', w4) ← rec finalbody;
          Done (Frame (<[idx := Try lineno body' handlers' orelse'
                                     finalbody']> (fr_body f))
                      (fr_offset f)
                      (fr_stdout f ++ w1 ++ w2 ++ w3 ++ w4))
      | Scope c lineno src body =>
          if is_scope c then
            '(body', w1) ← rec body;
            Done (Frame (<[idx := Scope c lineno src body']> (fr_body f))
                        (fr_offset f) (fr_stdout f ++ w1))
          else
            Done (Frame (fr_body f) (fr_offset f)
                        (fr_stdout f ++ [type_of node]))
      end
  end.
End annotate_body.

(** [annotate(body)]: the list [body] after the call, and the classes
    printed after [WARNING], in order. *)
Fixpoint annotate (fuel : nat) (body : list stmt)
  : outcome (list stmt * list node_type) :=
  match fuel with
  | O => Exhausted
  | S fuel' =>
      f ← for_in (seq 0 (length body)) (annotate_turn (annotate fuel'))
                 (Frame body 0 []);
      Done (fr_body f, fr_stdout f)
  end.

(** ** The rewriting, statement by statement

    What the loop of [annotate] amounts to: each statement of the block is
    replaced, where it stands, by itself with its hooks.  [annotate] is
    compared with it in [annotate_returns]. *)

Fixpoint instrument_stmt (s : stmt) : list stmt :=
  match s with
  | Simple c lineno _ =>
      if is_measurable c then [line_pre_call lineno; s; line_post_call lineno]
      else if is_exit c then [exit_pre_call lineno; s]
      else [s]
  | Branch c lineno src body orelse =>
      if is_branching c then
        [Branch c lineno src (flat_map instrument_stmt body)
                (flat_map instrument_stmt orelse)]
      else [s]
  | Try lineno body handlers orelse finalbody =>
      [Try lineno (flat_map instrument_stmt body)
           (map (λ h, ExceptHandler (h_lineno h) (h_src h)
                        (flat_map instrument_stmt (h_body h))) handlers)
           (flat_map instrument_stmt orelse)
           (flat_map instrument_stmt finalbody)]
  | Scope c lineno src body =>
      if is_scope c then [Scope c lineno src (flat_map instrument_stmt body)]
      else [s]
  end.

Definition instrument (body : list stmt) : list stmt :=
  flat_map instrument_stmt body.

Definition instrument_handler (h : handler stmt) : handler stmt :=
  ExceptHandler (h_lineno h) (h_src h) (instrument (h_body h)).

(** The classes printed after [WARNING], in the order of the calls. *)
Fixpoint warnings_stmt (s : stmt) : list node_type :=
  match s with
  | Simple c _ _ =>
      if is_measurable c then [] else if is_exit c then [] else [type_of s]
  | Branch c _ _ body orelse =>
      if is_branching c then
        flat_map warnings_stmt body ++ flat_map warnings_stmt orelse
      else [type_of s]
  | Try _ body handlers orelse finalbody =>
      flat_map warnings_stmt body ++ flat_map warnings_stmt orelse ++
      flat_map (λ h, flat_map warnings_stmt (h_body h)) handlers ++
      flat_map warnings_stmt finalbody
  | Scope c _ _ body =>
      if is_scope c then flat_map warnings_stmt body else [type_of s]
  end.

Definition warnings (body : list stmt) : list node_type :=
  flat_map warnings_stmt body.

(** Nesting depth of a block: how many activations of [annotate] are
    stacked below the one that receives it. *)
Fixpoint depth_stmt (s : stmt) : nat :=
  match s with
  | Simple _ _ _ => 0
  | Branch _ _ _ body orelse =>
      S (Nat.max (max_list_with depth_stmt body)
                 (max_list_with depth_stmt orelse))
  | Try _ body handlers orelse finalbody =>
      S (Nat.max
           (Nat.max (max_list_with depth_stmt body)
                    (max_list_with depth_stmt orelse))
           (Nat.max
              (max_list_with
                 (λ h, max_list_with depth_stmt (h_body h)) handlers)
              (max_list_with depth_stmt finalbody)))
  | Scope _ _ _ body => S (max_list_with depth_stmt body)
  end.

Definition depth (body : list stmt) : nat := max_list_with depth_stmt body.

(** ** The contract of the instrumenter, rule by rule

    [instrumented body out]: [out] is [body] with its hooks, by the
    classification of statement kinds.  Measurable statements stand between
    a begin hook and an end hook; control transfers follow a mark hook;
    conditionals, loops, exception handling and definitions keep their
    header and have each nested block instrumented; any other statement is
    kept as it is.  Nothing else is inserted and the order is kept. *)

Definition recognised (s : stmt) : bool :=
  match s with
  | Simple c _ _ => is_measurable c || is_exit c
  | Branch c _ _ _ _ => is_branching c
  | Try _ _ _ _ _ => true
  | Scope c _ _ _ => is_scope c
  end.


(** A small program: [x = 1], a loop with a [break] under an [if], a
    [try] with one handler, a function with a [return], and a [pass]. *)
Definition sample : list stmt :=
  [ Simple Assign 1 "x = 1";
    Branch While 2 "x < 3"
      [ Simple AugAssign 3 "x += 1";
        Branch If 4 "x == 2" [Simple Break 5 "break"] [Simple Pass 7 "pass"] ]
      [];
    Try 8 [Simple Expr 9 "f(x)"]
          [ExceptHandler 10 "KeyError" [Simple Delete 11 "del x"]]
          [] [Simple Import 13 "import os"];
    Scope FunctionDef 14 "f(y)" [Simple Return 15 "return y"];
    Scope AsyncFunctionDef 16 "g()" [Simple Return 17 "return 0"] ].


(** ** Python numbers *)

Inductive num : Set :=
| VInt (z : Z)
| VFloat (q : Qc).

Definition to_float (x : num) : Qc :=
  match x with
  | VInt z => Qc_of_Z z
  | VFloat q => q
  end.

(** [x + y]: an [int] when both are, a [float] otherwise. *)
Definition num_add (x y : num) : num :=
  match x, y with
  | VInt a, VInt b => VInt (a + b)
  | _, _ => VFloat (to_float x + to_float y)
  end.

Definition Qc_ltb (x y : Qc) : bool :=
  match (x ?= y)%Qc with Lt => true | _ => false end.

Definition Qc_eqb (x y : Qc) : bool :=
  match (x ?= y)%Qc with Eq => true | _ => false end.

(** [x < y] and [x == y] compare the values, whatever the types. *)
Definition num_ltb (x y : num) : bool := Qc_ltb (to_float x) (to_float y).

(** ** The objects and the state of the process *)

(** Objects are named by the order of their creation. *)
Abbreviation addr := nat (only parsing).

(** [collections.defaultdict(float)] and [collections.defaultdict(int)]. *)
Inductive factory : Set := float_factory | int_factory.

Definition default_value (f : factory) : num :=
  match f with
  | float_factory => VFloat 0
  | int_factory => VInt 0
  end.

Record defaultdict : Type := DefaultDict
  { default_factory : factory; items : gmap Z num }.

(** The value of [d[k]], as a mapping: the stored value, or the default.
    This is what a lookup returns; it does not tell whether [k] is a key. *)
Definition dd_peek (d : defaultdict) (k : Z) : num :=
  default (default_value (default_factory d)) (items d !! k).

(** The fields of a [LineProf].  [line_time] and [line_evals] name objects
    of the store. *)
Record LineProf : Type := mkLineProf
  { begin_time : gmap Z Qc;
    line_time : addr;
    line_evals : addr;
    last_report : Qc }.

(** The fields of a [Reporter] used by the dashboard; [data] is the
    triple [interval, total_time, evals]. *)
Record Reporter : Type := mkReporter
  { lines : list string;
    keywords : list (list (Z * string));
    data : num * addr * addr;
    dirty : bool;
    scroll : Z;
    height : Z }.

(** A call [stdscr.addstr(y, x, text, curses.color_pair(n))]; [None] when
    the call has no attribute. *)
Record addstr_call : Type := AddStr
  { as_y : Z; as_x : Z; as_text : string; as_pair : option Z }.

(** The state of the process.
    - [clock k] is what the [k]-th call of [time.monotonic()] returns and
      [ticks] counts the calls made;
    - [heap] holds the [defaultdict] objects, [next] is the first address
      not yet given to an object;
    - [screen] is the list of [addstr] calls since the last [clear];
    - [published] records the arguments of every call of
      [Reporter.report], oldest first;
    - [interrupted] is set once SIGINT was sent to the process. *)
Record world : Type := World
  { clock : nat → Qc;
    ticks : nat;
    heap : addr → defaultdict;
    next : addr;
    lineprof : LineProf;
    reporter : Reporter;
    screen : list addstr_call;
    published : list (num * addr * addr);
    interrupted : bool }.

Definition set_ticks (n : nat) (w : world) : world :=
  World (clock w) n (heap w) (next w) (lineprof w) (reporter w) (screen w)
        (published w) (interrupted w).
Definition set_heap (h : addr → defaultdict) (w : world) : world :=
  World (clock w) (ticks w) h (next w) (lineprof w) (reporter w) (screen w)
        (published w) (interrupted w).
Definition set_next (n : addr) (w : world) : world :=
  World (clock w) (ticks w) (heap w) n (lineprof w) (reporter w) (screen w)
        (published w) (interrupted w).
Definition set_lineprof (p : LineProf) (w : world) : world :=
  World (clock w) (ticks w) (heap w) (next w) p (reporter w) (screen w)
        (published w) (interrupted w).
Definition set_reporter (r : Reporter) (w : world) : world :=
  World (clock w) (ticks w) (heap w) (next w) (lineprof w) r (screen w)
        (published w) (interrupted w).
Definition set_screen (s : list addstr_call) (w : world) : world :=
  World (clock w) (ticks w) (heap w) (next w) (lineprof w) (reporter w) s
        (published w) (interrupted w).
Definition set_published (p : list (num * addr * addr)) (w : world) : world :=
  World (clock w) (ticks w) (heap w) (next w) (lineprof w) (reporter w)
        (screen w) p (interrupted w).
Definition set_interrupted (b : bool) (w : world) : world :=
  World (clock w) (ticks w) (heap w) (next w) (lineprof w) (reporter w)
        (screen w) (published w) b.

Definition set_begin_time (m : gmap Z Qc) (p : LineProf) : LineProf :=
  mkLineProf m (line_time p) (line_evals p) (last_report p).
Definition set_line_time (a : addr) (p : LineProf) : LineProf :=
  mkLineProf (begin_time p) a (line_evals p) (last_report p).
Definition set_line_evals (a : addr) (p : LineProf) : LineProf :=
  mkLineProf (begin_time p) (line_time p) a (last_report p).
Definition set_last_report (t : Qc) (p : LineProf) : LineProf :=
  mkLineProf (begin_time p) (line_time p) (line_evals p) t.

Definition set_data (d : num * addr * addr) (r : Reporter) : Reporter :=
  mkReporter (lines r) (keywords r) d (dirty r) (scroll r) (height r).
Definition set_dirty (b : bool) (r : Reporter) : Reporter :=
  mkReporter (lines r) (keywords r) (data r) b (scroll r) (height r).
Definition set_scroll (z : Z) (r : Reporter) : Reporter :=
  mkReporter (lines r) (keywords r) (data r) (dirty r) z (height r).
Definition set_height (z : Z) (r : Reporter) : Reporter :=
  mkReporter (lines r) (keywords r) (data r) (dirty r) (scroll r) z.

(** ** Calls: state passing with exceptions

    A call returns or raises, and yields the state it reached. *)

Definition M (A : Type) : Type := world → outcome A * world.

#[export] Instance M_ret : MRet M := λ A a w, (Done a, w).

#[export] Instance M_bind : MBind M := λ A B k m w,
  match m w with
  | (Done a, w') => k a w'
  | (Raised e, w') => (Raised e, w')
  | (Exhausted, w') => (Exhausted, w')
  end.

Definition raise {A} (e : exception) : M A := λ w, (Raised e, w).
Definition get {A} (f : world → A) : M A := λ w, (Done (f w), w).
Definition update (f : world → world) : M unit := λ w, (Done tt, f w).
Definition update_lineprof (f : LineProf → LineProf) : M unit :=
  update (λ w, set_lineprof (f (lineprof w)) w).
Definition update_reporter (f : Reporter → Reporter) : M unit :=
  update (λ w, set_reporter (f (reporter w)) w).

(** [for x in xs: f(x)] *)
Fixpoint for_each {A} (xs : list A) (f : A → M unit) : M unit :=
  match xs with
  | [] => mret tt
  | x :: xs' => f x ≫= λ _, for_each xs' f
  end.

(** [time.monotonic()] *)
Definition monotonic : M Qc := λ w,
  (Done (clock w (ticks w)), set_ticks (S (ticks w)) w).

(** [collections.defaultdict(f)]: a new, empty object. *)
Definition new_defaultdict (f : factory) : M addr := λ w,
  (Done (next w),
   set_next (S (next w)) (set_heap (<[next w := DefaultDict f ∅]> (heap w)) w)).

(** [d[k]] on a [defaultdict]: a missing key is first stored with the
    default value. *)
Definition dd_getitem (a : addr) (k : Z) : M num := λ w,
  let d := heap w a in
  match items d !! k with
  | Some v => (Done v, w)
  | None =>
      let v := default_value (default_factory d) in
      (Done v,
       set_heap (<[a := DefaultDict (default_factory d) (<[k := v]> (items d))]>
                   (heap w)) w)
  end.

(** [d[k] = v] *)
Definition dd_setitem (a : addr) (k : Z) (v : num) : M unit :=
  update (λ w,
    let d := heap w a in
    set_heap (<[a := DefaultDict (default_factory d) (<[k := v]> (items d))]>
                (heap w)) w).

(** [x / y] *)
Definition truediv (x y : num) : M Qc :=
  if Qc_eqb (to_float y) 0 then raise ZeroDivisionError
  else mret (to_float x / to_float y)%Qc.

(** ** [Reporter.invalidate] and [Reporter.report] *)

Definition invalidate : M unit := update_reporter (set_dirty true).

Definition Reporter_report (interval : num) (total_time evals : addr)
  : M unit :=
  update_reporter (set_data (interval, total_time, evals)) ≫= λ _,
  update (λ w, set_published
                 (published w ++ [(interval, total_time, evals)]) w) ≫= λ _,
  invalidate.

(** ** [LineProf] *)

Definition clear : M unit :=
  a ← new_defaultdict float_factory;
  update_lineprof (set_line_time a) ≫= λ _,
  b ← new_defaultdict int_factory;
  update_lineprof (set_line_evals b) ≫= λ _,
  t ← monotonic;
  update_lineprof (set_last_report t).

Definition LineProf_init : M unit :=
  update_lineprof (set_begin_time ∅) ≫= λ _,
  clear.

Definition line_pre (lineno : Z) : M unit :=
  t ← monotonic;
  update_lineprof (λ p, set_begin_time (<[lineno := t]> (begin_time p)) p).

Definition exit_pre (lineno : Z) : M unit :=
  evals ← get (λ w, line_evals (lineprof w));
  n ← dd_getitem evals lineno;
  dd_setitem evals lineno (num_add n (VInt 1)).

Definition report (interval : option num) : M unit :=
  interval ← match interval with
             | None =>
                 t ← monotonic;
                 last ← get (λ w, last_report (lineprof w));
                 mret (VFloat (t - last))
             | Some i => mret i
             end;
  total_time ← get (λ w, line_time (lineprof w));
  evals ← get (λ w, line_evals (lineprof w));
  Reporter_report interval total_time evals ≫= λ _,
  clear.

(** In [self.line_time[lineno] += now - self.begin_time[lineno]] the
    target is read before the right-hand side is evaluated. *)
Definition line_post (lineno : Z) : M unit :=
  now ← monotonic;
  total_time ← get (λ w, line_time (lineprof w));
  old ← dd_getitem total_time lineno;
  started ← get (λ w, begin_time (lineprof w) !! lineno);
  t0 ← match started with
       | Some t0 => mret t0
       | None => raise (KeyError lineno)
       end;
  dd_setitem total_time lineno (num_add old (VFloat (now - t0))) ≫= λ _,
  evals ← get (λ w, line_evals (lineprof w));
  n ← dd_getitem evals lineno;
  dd_setitem evals lineno (num_add n (VInt 1)) ≫= λ _,
  last ← get (λ w, last_report (lineprof w));
  let interval := VFloat (now - last) in
  if num_ltb (VInt 1) interval then report (Some interval) else mret tt.

(** ** [Reporter]: construction, keys, drawing *)

(** [Reporter.__init__], after the tree was parsed and annotated: [lines]
    is [code.splitlines()] and [keywords] the spans found in each line. *)
Definition Reporter_init (code_lines : list string)
    (spans : list (list (Z * string))) : M unit :=
  a ← new_defaultdict float_factory;
  b ← new_defaultdict float_factory;
  update (set_reporter (mkReporter code_lines spans (VInt 1, a, b)
                                   false 0 10)).

(** [ord(c)] of the keys the dashboard reads. *)
Definition ord (c : ascii) : Z := Z.of_nat (nat_of_ascii c).

(** The six tests on the key, in [Reporter.input_thread]. *)
Definition input_key (c : Z) : M unit :=
  (if bool_decide (c = ord "j") then
     update_reporter (λ r, set_scroll (scroll r + 1) r) else mret tt) ≫= λ _,
  (if bool_decide (c = ord "k") then
     update_reporter (λ r, set_scroll (scroll r - 1) r) else mret tt) ≫= λ _,
  (if bool_decide (c = ord "d") then
     update_reporter (λ r, set_scroll (scroll r + height r `div` 2) r)
   else mret tt) ≫= λ _,
  (if bool_decide (c = ord "u") then
     update_reporter (λ r, set_scroll (scroll r - height r `div` 2) r)
   else mret tt) ≫= λ _,
  (if bool_decide (c = ord " ") then
     update_reporter (λ r, set_scroll (scroll r + height r) r)
   else mret tt) ≫= λ _,
  (if bool_decide (c = ord "q") then update (set_interrupted true)
   else mret tt).

(** The two tests on [self.scroll] that follow. *)
Definition clamp_scroll : M unit :=
  update_reporter (λ r, if scroll r <? 0 then set_scroll 0 r else r) ≫= λ _,
  update_reporter (λ r,
    if Z.of_nat (length (lines r)) - height r + 2 <? scroll r
    then set_scroll (Z.of_nat (length (lines r)) - height r + 2) r
    else r).

(** One turn of the loop of [Reporter.input_thread], [c] being what
    [getch()] returned. *)
Definition input_turn (c : Z) : M unit :=
  input_key c ≫= λ _,
  clamp_scroll ≫= λ _,
  invalidate.

(** Nearest integer, ties to the even one. *)
Definition round_half_even (q : Qc) : Z :=
  let n := Qnum q in
  let d := Z.pos (Qden q) in
  match (2 * (n `mod` d) ?= d)%Z with
  | Lt => n `div` d
  | Gt => n `div` d + 1
  | Eq => if Z.even (n `div` d) then n `div` d else n `div` d + 1
  end.

Fixpoint spaces (n : nat) : string :=
  match n with
  | O => ""
  | S n' => String " " (spaces n')
  end.

(** [f'{q:W.1f}']: one digit after the point, rounded to the nearest on
    the exact value [q] (ties to the even digit), at least [W] characters,
    padded on the left. *)
Definition format_1f (width : nat) (q : Qc) : string :=
  let neg := Qc_ltb q 0 in
  let tenths := round_half_even ((if neg then - q else q) * Qc_of_Z 10)%Qc in
  let digits := (if neg then "-" else "") +:+ pretty (tenths `div` 10) +:+ "."
                +:+ pretty (tenths `mod` 10) in
  spaces (width - String.length digits) +:+ digits.

(** The text of the share of time of a line, [part] being the percentage. *)
Definition percent_text (part : Qc) : string :=
  if Qc_ltb part (Qc_of_Z 1 / Qc_of_Z 10)%Qc then ""
  else format_1f 4 part +:+ "%".

(** The text of the frequency of a line, [fr] being evaluations per
    second. *)
Definition freq_text (fr : Qc) : string :=
  if Qc_eqb fr 0 then ""
  else if Qc_ltb fr (Qc_of_Z 1000) then format_1f 5 fr +:+ "Hz"
  else if Qc_ltb fr (Qc_of_Z 1000000) then
    format_1f 5 (fr / Qc_of_Z 1000)%Qc +:+ "k"
  else format_1f 5 (fr / Qc_of_Z 1000000)%Qc +:+ "M".

(** [stdscr.addstr(y, x, text, attr)] *)
Definition addstr (y x : Z) (text : string) (pair : option Z) : M unit :=
  update (λ w, set_screen (screen w ++ [AddStr y x text pair]) w).

(** The body of the loop over [enumerate(self.lines, 1)] in
    [Reporter.draw_thread]. *)
Definition draw_line (height : Z) (interval : num) (total_time evals : addr)
    (item : Z * string) : M unit :=
  let '(lineno, line) := item in
  sc ← get (λ w, scroll (reporter w));
  let screen_line := lineno - sc in
  if negb ((0 <? screen_line) && (screen_line <? height)) then mret tt
  else
    t ← dd_getitem total_time lineno;
    share ← truediv t interval;
    let part := (share * Qc_of_Z 100)%Qc in
    let percent := percent_text part in
    n ← dd_getitem evals lineno;
    fr ← truediv n interval;
    let freq := freq_text fr in
    addstr screen_line 1 percent (Some 5) ≫= λ _,
    addstr screen_line 7 freq (Some 5) ≫= λ _,
    (if Qc_ltb (Qc_of_Z 20) part then addstr screen_line 15 line (Some 2)
     else if Qc_ltb (Qc_of_Z 5) part then addstr screen_line 15 line (Some 4)
     else addstr screen_line 15 line None) ≫= λ _,
    kws ← get (λ w, keywords (reporter w) !! Z.to_nat (lineno - 1));
    match kws with
    | None => raise IndexError
    | Some kws =>
        for_each kws (λ '(idx, keyword),
          addstr screen_line (15 + idx) keyword (Some 1))
    end.

(** [enumerate(xs, start)] *)
Fixpoint enumerate {A} (xs : list A) (start : Z) : list (Z * A) :=
  match xs with
  | [] => []
  | x :: xs' => (start, x) :: enumerate xs' (start + 1)
  end.

(** One turn of the loop of [Reporter.draw_thread], [(h, width)] being
    what [getmaxyx()] returned. *)
Definition draw_turn (h width : Z) : M unit :=
  update_reporter (set_height h) ≫= λ _,
  '(interval, total_time, evals) ← get (λ w, data (reporter w));
  update (set_screen []) ≫= λ _,
  ls ← get (λ w, lines (reporter w));
  for_each (enumerate ls 1) (draw_line h interval total_time evals) ≫= λ _,
  update_reporter (set_dirty false).

(** ** The process *)

(** What happens in the process, one step at a time: the profiled program
    reaches a hook, a key arrives, the dashboard is drawn.  [Flush] is a
    call [report()] without an interval. *)
Inductive event : Set :=
| LinePre (lineno : Z)
| ExitPre (lineno : Z)
| LinePost (lineno : Z)
| Flush
| Key (c : Z)
| Draw (h width : Z).

#[export] Instance event_eq_dec : EqDecision event.
Proof. solve_decision. Defined.

Definition handle (ev : event) : M unit :=
  match ev with
  | LinePre n => line_pre n
  | ExitPre n => exit_pre n
  | LinePost n => line_post n
  | Flush => report None
  | Key c => input_turn c
  | Draw h width => draw_turn h width
  end.

(** The state after an event; an exception ends the call that raised it
    and leaves the state as it was when raised. *)
Definition step (w : world) (ev : event) : world := snd (handle ev w).

Definition run (evs : list event) (w : world) : world := foldl step w evs.

(** The process once [Reporter(code, stdscr)] and [LineProf(self)] are
    constructed, on a given clock. *)
Definition boot (clk : nat → Qc) (code_lines : list string)
    (spans : list (list (Z * string))) : world :=
  snd ((Reporter_init code_lines spans ≫= λ _, LineProf_init)
         (World clk 0 (λ _, DefaultDict float_factory ∅) 0
                (mkLineProf ∅ 0 0 0%Qc)
                (mkReporter [] [] (VInt 0, 0%nat, 0%nat) false 0 0)
                [] [] false)).

(** A clock that advances by one second at each reading. *)
Definition seconds (k : nat) : Qc := Qc_of_Z (Z.of_nat k).

(** ** Invariants of the store *)

(** The objects named by the accumulator are distinct, already created,
    and are neither the objects of [data] nor objects published before. *)
Record store_ok (w : world) : Prop := StoreOk
  { ok_time : (line_time (lineprof w) < next w)%nat;
    ok_evals : (line_evals (lineprof w) < next w)%nat;
    ok_distinct : line_time (lineprof w) ≠ line_evals (lineprof w);
    ok_data : ∀ a, a = (data (reporter w)).1.2 ∨ a = (data (reporter w)).2 →
                   (a < next w)%nat ∧ a ≠ line_time (lineprof w) ∧
                   a ≠ line_evals (lineprof w);
    ok_published : ∀ i a b, (i, a, b) ∈ published w →
                   ((a < next w)%nat ∧ a ≠ line_time (lineprof w) ∧
                    a ≠ line_evals (lineprof w)) ∧
                   ((b < next w)%nat ∧ b ≠ line_time (lineprof w) ∧
                    b ≠ line_evals (lineprof w)) }.

(** [time.monotonic()] never goes back. *)
Definition monotone (clk : nat → Qc) : Prop :=
  ∀ i j, (i ≤ j)%nat → (clk i ≤ clk j)%Qc.

(** Every value held by a dictionary is at least zero. *)
Definition dd_nonneg (d : defaultdict) : Prop :=
  ∀ k v, items d !! k = Some v → (0 ≤ to_float v)%Qc.

(** The accumulated values are at least zero, and no start time is later
    than the next reading of the clock. *)
Record acc_ok (w : world) : Prop := AccOk
  { ok_time_nonneg : dd_nonneg (heap w (line_time (lineprof w)));
    ok_evals_nonneg : dd_nonneg (heap w (line_evals (lineprof w)));
    ok_begin : ∀ l t, begin_time (lineprof w) !! l = Some t →
                      (t ≤ clock w (ticks w))%Qc }.

(** ** The calls in closed form

    The states the calls lead to, written out; each call is shown equal to
    its closed form before anything else is proved about it. *)

(** The store after the read [d[k]] of the dictionary at [a]. *)
Definition dd_touch (a : addr) (k : Z) (h : addr → defaultdict)
  : addr → defaultdict :=
  match items (h a) !! k with
  | Some _ => h
  | None =>
      <[a := DefaultDict (default_factory (h a))
                         (<[k := default_value (default_factory (h a))]>
                            (items (h a)))]> h
  end.

(** The store after [d[k] = v]. *)
Definition dd_store (a : addr) (k : Z) (v : num) (h : addr → defaultdict)
  : addr → defaultdict :=
  <[a := DefaultDict (default_factory (h a)) (<[k := v]> (items (h a)))]> h.

(** The store after [d[k] += x]. *)
Definition dd_incr (a : addr) (k : Z) (x : num) (h : addr → defaultdict)
  : addr → defaultdict :=
  dd_store a k (num_add (dd_peek (h a) k) x) (dd_touch a k h).

(** The state after [clear]: two new empty dictionaries become the
    accumulator's, and the publish clock is read anew. *)
Definition cleared (w : world) : world :=
  World (clock w) (S (ticks w))
        (<[S (next w) := DefaultDict int_factory ∅]>
           (<[next w := DefaultDict float_factory ∅]> (heap w)))
        (S (S (next w)))
        (mkLineProf (begin_time (lineprof w)) (next w) (S (next w))
                    (clock w (ticks w)))
        (reporter w) (screen w) (published w) (interrupted w).

(** The state after [Reporter.report(interval, total_time, evals)]. *)
Definition reported (snapshot : num * addr * addr) (w : world) : world :=
  set_reporter (set_dirty true (set_data snapshot (reporter w)))
               (set_published (published w ++ [snapshot]) w).

(** The interval [report] publishes: the one it is given, or the time
    since the publish clock was last read. *)
Definition report_interval (interval : option num) (w : world) : num :=
  match interval with
  | Some i => i
  | None => VFloat (clock w (ticks w) - last_report (lineprof w))
  end.

Definition report_clock (interval : option num) (w : world) : world :=
  match interval with
  | Some _ => w
  | None => set_ticks (S (ticks w)) w
  end.

(** The state after [report(interval)]. *)
Definition flushed (interval : option num) (w : world) : world :=
  cleared (reported (report_interval interval w, line_time (lineprof w),
                     line_evals (lineprof w)) (report_clock interval w)).

(** The state [line_post(lineno)] reaches before it looks at the publish
    clock, [t0] being the start time of the line. *)
Definition posted (lineno : Z) (t0 : Qc) (w : world) : world :=
  set_heap (dd_incr (line_evals (lineprof w)) lineno (VInt 1)
              (dd_incr (line_time (lineprof w)) lineno
                 (VFloat (clock w (ticks w) - t0)) (heap w)))
           (set_ticks (S (ticks w)) w).

(** The state [boot] builds: the two dictionaries of the first [data],
    then those of the accumulator. *)
Definition booted (clk : nat → Qc) (code_lines : list string)
    (spans : list (list (Z * string))) : world :=
  World clk 1
        (<[3%nat := DefaultDict int_factory ∅]>
           (<[2%nat := DefaultDict float_factory ∅]>
              (<[1%nat := DefaultDict float_factory ∅]>
                 (<[0%nat := DefaultDict float_factory ∅]>
                    (λ _, DefaultDict float_factory ∅)))))
        4
        (mkLineProf ∅ 2 3 (clk 0%nat))
        (mkReporter code_lines spans (VInt 1, 0%nat, 1%nat) false 0 10)
        [] [] false.

(** A state with one published window: line 1 of a file of two lines ran
    once, and [line_post] found the publish clock two seconds old. *)
Definition published_once : world :=
  run [LinePre 1; LinePost 1] (boot seconds ["x = 1"; "y = 2"] [[]; []]).

(** A state in which line 7 has an open start time. *)
Definition begun : world := step (boot seconds [] []) (LinePre 7).

(** [grows d d']: the dictionary [d'] is [d] with, at most, more keys, each
    of them holding the default value; every key maps to what it mapped
    to. *)
Definition grows (d d' : defaultdict) : Prop :=
  default_factory d' = default_factory d ∧
  items d ⊆ items d' ∧
  ∀ k, dd_peek d' k = dd_peek d k.

(** What a turn of the drawing loop may do to the store: it reads the two
    dictionaries of [data], so it may add keys to them with the default
    value, and nothing else. *)
Record reads_only (total_time evals : addr) (w w' : world) : Prop := ReadsOnly
  { ro_clock : clock w' = clock w;
    ro_ticks : ticks w' = ticks w;
    ro_next : next w' = next w;
    ro_lineprof : lineprof w' = lineprof w;
    ro_reporter : reporter w' = reporter w;
    ro_published : published w' = published w;
    ro_interrupted : interrupted w' = interrupted w;
    ro_heap : ∀ a, a ≠ total_time → a ≠ evals → heap w' a = heap w a;
    ro_grows : ∀ a, grows (heap w a) (heap w' a) }.

(** What a turn of the input loop may change: the offset, the dirty flag,
    and whether the process was interrupted. *)
Record scrolls_only (w w' : world) : Prop := ScrollsOnly
  { so_clock : clock w' = clock w;
    so_ticks : ticks w' = ticks w;
    so_heap : heap w' = heap w;
    so_next : next w' = next w;
    so_lineprof : lineprof w' = lineprof w;
    so_screen : screen w' = screen w;
    so_published : published w' = published w;
    so_lines : lines (reporter w') = lines (reporter w);
    so_keywords : keywords (reporter w') = keywords (reporter w);
    so_data : data (reporter w') = data (reporter w);
    so_height : height (reporter w') = height (reporter w) }.

(** [keeps R m]: the call [m] leads from any state to a state related to
    it by [R], whether it returns or raises. *)
Definition keeps {A} (R : world → world → Prop) (m : M A) : Prop :=
  ∀ w, R w (snd (m w)).

(** What a turn of the drawing loop may change: the screen, the height,
    the dirty flag, and the keys of the two dictionaries of [data]. *)
Record draws_only (w w' : world) : Prop := DrawsOnly
  { do_clock : clock w' = clock w;
    do_ticks : ticks w' = ticks w;
    do_next : next w' = next w;
    do_lineprof : lineprof w' = lineprof w;
    do_published : published w' = published w;
    do_interrupted : interrupted w' = interrupted w;
    do_lines : lines (reporter w') = lines (reporter w);
    do_keywords : keywords (reporter w') = keywords (reporter w);
    do_data : data (reporter w') = data (reporter w);
    do_scroll : scroll (reporter w') = scroll (reporter w);
    do_heap : ∀ a, a ≠ (data (reporter w)).1.2 → a ≠ (data (reporter w)).2 →
                   heap w' a = heap w a;
    do_grows : ∀ a, grows (heap w a) (heap w' a) }.

(** An object that exists and is not one of the accumulator's. *)
Definition frozen (w : world) (a : addr) : Prop :=
  (a < next w)%nat ∧ a ≠ line_time (lineprof w) ∧ a ≠ line_evals (lineprof w).

(** What the loop over the lines does between two of its turns: it adds
    calls of [addstr], and default entries to dictionaries. *)
Definition drawn (w w' : world) : Prop :=
  reporter w' = reporter w ∧
  (∀ a, grows (heap w a) (heap w' a)) ∧
  ∃ more, screen w' = screen w ++ more.

(** The call that writes the frequency of line [lineno]. *)
Definition freq_call (w : world) (interval : num) (evals : addr) (lineno : Z)
  : addstr_call :=
  AddStr (lineno - scroll (reporter w)) 7
         (freq_text (to_float (dd_peek (heap w evals) lineno)
                     / to_float interval)%Qc)
         (Some 5).

(** A call that returns and changes at most the offset and the
    interruption flag. *)
Definition scroll_step (m : M unit) : Prop :=
  ∀ w, ∃ s b,
    m w = (Done tt,
           set_interrupted b (set_reporter (set_scroll s (reporter w)) w)).


(** ** Further definitions, for the properties beyond the contract *)

(** The number of hook calls [annotate] inserts around a statement of the
    block it is given. *)
Definition hooks_inserted (s : stmt) : nat :=
  match s with
  | Simple c _ _ => if is_measurable c then 2 else if is_exit c then 1 else 0
  | _ => 0
  end.

(** Every interval published so far exceeds one second, and the interval
    of [data] is at least one. *)
Definition intervals_ok (w : world) : Prop :=
  (∀ i a b, (i, a, b) ∈ published w → (Qc_of_Z 1 < to_float i)%Qc) ∧
  (Qc_of_Z 1 ≤ to_float (data (reporter w)).1.1)%Qc.

(** The dictionaries published so far, oldest first: times, then counts. *)
Definition published_names (w : world) : list addr :=
  published w ≫= λ x, [x.1.2; x.2].

(** The greatest offset the input loop lets through:
    [len(self.lines) - self.height + 2]. *)
Definition scroll_bound (r : Reporter) : Z :=
  Z.of_nat (length (lines r)) - height r + 2.

(** By how much a key moves the offset, before the two tests on it. *)
Definition key_move (c : Z) (h : Z) : Z :=
  if bool_decide (c = ord "j") then 1
  else if bool_decide (c = ord "k") then -1
  else if bool_decide (c = ord "d") then h `div` 2
  else if bool_decide (c = ord "u") then - (h `div` 2)
  else if bool_decide (c = ord " ") then h
  else 0.

(** The two tests on the offset, in their order. *)
Definition clamp (bound x : Z) : Z :=
  let x0 := if x <? 0 then 0 else x in
  if bound <? x0 then bound else x0.

(** ** What a turn of the drawing loop writes, as a function of the state

    [render h w] lists the calls of [addstr] of a turn of the drawing loop
    in a window of [h] rows: for each line of the file, in order, if its
    row [lineno - self.scroll] is strictly between [0] and [h], the share
    of time at column 1, the frequency at column 7, the text of the line
    at column 15 with its emphasis, then its keywords; nothing for the
    other lines.  [draw_turn] is compared with it in [draw_turn_screen]. *)

(** [0 < lineno - self.scroll < height] *)
Definition visible (h : Z) (w : world) (lineno : Z) : bool :=
  (0 <? lineno - scroll (reporter w)) && (lineno - scroll (reporter w) <? h).

(** The percentage of the interval spent on a line. *)
Definition line_part (w : world) (interval : num) (total_time : addr)
    (lineno : Z) : Qc :=
  (to_float (dd_peek (heap w total_time) lineno) / to_float interval
   * Qc_of_Z 100)%Qc.

(** The colour pair of the text of a line: 2 above 20 percent, 4 above 5
    percent, none otherwise. *)
Definition emphasis (part : Qc) : option Z :=
  if Qc_ltb (Qc_of_Z 20) part then Some 2
  else if Qc_ltb (Qc_of_Z 5) part then Some 4
  else None.

Definition keyword_call (y : Z) (span : Z * string) : addstr_call :=
  AddStr y (15 + span.1) span.2 (Some 1).

Definition line_calls (w : world) (interval : num) (total_time evals : addr)
    (lineno : Z) (line : string) (kws : list (Z * string))
  : list addstr_call :=
  let y := lineno - scroll (reporter w) in
  let part := line_part w interval total_time lineno in
  [ AddStr y 1 (percent_text part) (Some 5);
    freq_call w interval evals lineno;
    AddStr y 15 line (emphasis part) ]
  ++ (keyword_call y <$> kws).

Definition render_line (h : Z) (w : world) (interval : num)
    (total_time evals : addr) (item : Z * string) : list addstr_call :=
  if visible h w item.1
  then line_calls w interval total_time evals item.1 item.2
         (default [] (keywords (reporter w) !! Z.to_nat (item.1 - 1)))
  else [].

Definition render (h : Z) (w : world) : list addstr_call :=
  enumerate (lines (reporter w)) 1
  ≫= render_line h w (data (reporter w)).1.1 (data (reporter w)).1.2
                     (data (reporter w)).2.

(** Two states in which the dashboard shows the same: the same fields of
    the [Reporter], and dictionaries in which every line maps to the same
    value. *)
Definition same_view (w w' : world) : Prop :=
  reporter w' = reporter w ∧ ∀ a, grows (heap w a) (heap w' a).

(** Every call on the screen is on a row strictly between [0] and [h]. *)
Definition rows_within (h : Z) (w : world) : Prop :=
  ∀ c, c ∈ screen w → 0 < as_y c < h.

Definition keeps_rows (h : Z) (w w' : world) : Prop :=
  rows_within h w → rows_within h w'.

(** A clock that stands still, and the state after [report()] on it: the
    interval published is zero. *)
Definition still (k : nat) : Qc := 0%Qc.

Definition published_at_once : world :=
  run [Flush] (boot still ["x = 1"] [[]]).
(** * Properties of [annotate] *)

Example annotate_sample :
  annotate 4 sample = Done (instrument sample, warnings sample).
Proof. vm_compute. reflexivity. Qed.

Example annotate_sample_top :
  fst <$> annotate 4 [Simple Assign 12 "x = 1"; Simple Return 13 "return x"]
  = Done [ Simple Expr 1 "_lineprof.line_pre(12)"; Simple Assign 12 "x = 1";
           Simple Expr 1 "_lineprof.line_post(12)";
           Simple Expr 1 "_lineprof.exit_pre(13)";
           Simple Return 13 "return x" ].
Proof. vm_compute. reflexivity. Qed.

(** ** List surgery used by the loop *)

Lemma list_insert_at_middle {A} (pre rest : list A) (x : A) (i : nat) :
  i = length pre → list_insert_at i x (pre ++ rest) = pre ++ x :: rest.
Proof.
  intros ->. unfold list_insert_at.
  by rewrite take_app_length, drop_app_length.
Qed.

Lemma list_insert_at_after2 {A} (pre rest : list A) (a b x : A) (i : nat) :
  i = length pre →
  list_insert_at (i + 2) x (pre ++ a :: b :: rest) = pre ++ a :: b :: x :: rest.
Proof.
  intros ->. change (pre ++ a :: b :: rest) with (pre ++ [a; b] ++ rest).
  rewrite app_assoc, list_insert_at_middle, <-app_assoc; [done|].
  rewrite length_app. cbn. lia.
Qed.

Lemma list_insert_middle {A} (pre rest : list A) (x y : A) (i : nat) :
  i = length pre → <[i := y]> (pre ++ x :: rest) = pre ++ y :: rest.
Proof.
  intros ->. replace (length pre) with (length pre + 0)%nat by lia.
  by rewrite insert_app_r.
Qed.

(** ** Depth of blocks *)

Lemma depth_cons s body : depth (s :: body) = Nat.max (depth_stmt s) (depth body).
Proof. reflexivity. Qed.

Lemma depth_app xs ys : depth (xs ++ ys) = Nat.max (depth xs) (depth ys).
Proof.
  unfold depth. induction xs as [|x xs IH]; cbn; [done|].
  rewrite IH. lia.
Qed.

Lemma instrument_app xs ys : instrument (xs ++ ys) = instrument xs ++ instrument ys.
Proof. apply flat_map_app. Qed.

Lemma warnings_app xs ys : warnings (xs ++ ys) = warnings xs ++ warnings ys.
Proof. apply flat_map_app. Qed.

(** ** [annotate] computes [instrument] *)

(** Two frames are equal when their three fields are. *)
Ltac frame_eq :=
  cbn; f_equal; f_equal; rewrite ?app_nil_r, <-?app_assoc;
  first [done | lia | idtac].

Section loop.
Variable rec : list stmt → outcome (list stmt * list node_type).
Variable bound : nat.
(** The recursive call is right on every block nested less than [bound]. *)
Hypothesis rec_ok : ∀ body,
  (depth body < bound)%nat → rec body = Done (instrument body, warnings body).

Lemma annotate_handlers_ok hs :
  (max_list_with (λ h, depth (h_body h)) hs < bound)%nat →
  annotate_handlers rec hs
  = Done (map instrument_handler hs,
          flat_map (λ h, warnings (h_body h)) hs).
Proof.
  induction hs as [|h hs IH]; intros Hd; [done|].
  cbn [max_list_with] in Hd. cbn [annotate_handlers].
  rewrite rec_ok by lia. cbn. rewrite IH by lia. done.
Qed.

Lemma annotate_turn_ok pre s rest i off out :
  (i + off)%nat = length pre →
  (depth_stmt s ≤ bound)%nat →
  annotate_turn rec i (Frame (pre ++ s :: rest) off out)
  = Done (Frame (pre ++ instrument_stmt s ++ rest)
                (off + length (instrument_stmt s) - 1)
                (out ++ warnings_stmt s)).
Proof.
  intros Hi Hd. unfold annotate_turn. cbn [fr_body fr_offset fr_stdout].
  rewrite list_lookup_middle by done.
  destruct s as [c n src|c n src b o|n b hs o fin|c n src b];
    cbn [instrument_stmt warnings_stmt depth_stmt] in *.
  - destruct (is_measurable c); [|destruct (is_exit c)].
    + rewrite list_insert_at_middle, list_insert_at_after2 by done.
      frame_eq.
    + rewrite list_insert_at_middle by done. frame_eq.
    + frame_eq.
  - destruct (is_branching c); [|frame_eq].
    fold (depth b) (depth o) in Hd.
    rewrite !rec_ok by lia. cbn.
    rewrite list_insert_middle by done. frame_eq.
  - fold (depth b) (depth o) (depth fin) in Hd.
    rewrite !rec_ok by lia. cbn.
    rewrite annotate_handlers_ok by (unfold depth; lia). cbn.
    rewrite ?rec_ok by lia. cbn.
    rewrite list_insert_middle by done. frame_eq.
  - destruct (is_scope c); [|frame_eq].
    fold (depth b) in Hd.
    rewrite rec_ok by lia. cbn.
    rewrite list_insert_middle by done. frame_eq.
Qed.

Lemma instrument_stmt_length s : (1 ≤ length (instrument_stmt s))%nat.
Proof.
  destruct s as [c ? ?|c ? ? ? ?|? ? ? ? ?|c ? ? ?]; cbn;
    repeat case_match; cbn; lia.
Qed.

(** Loop invariant: after the turns for [done], the list holds
    [instrument done] followed by the statements not yet visited, and
    [offset] is the number of hooks inserted so far. *)
Lemma annotate_loop_ok rest : ∀ pre i off out,
  (i + off)%nat = length pre →
  (depth rest ≤ bound)%nat →
  for_in (seq i (length rest)) (annotate_turn rec) (Frame (pre ++ rest) off out)
  = Done (Frame (pre ++ instrument rest)
                (off + length (instrument rest) - length rest)
                (out ++ warnings rest)).
Proof.
  induction rest as [|s rest IH]; intros pre i off out Hi Hd.
  - cbn. rewrite !app_nil_r. do 2 f_equal. lia.
  - rewrite depth_cons in Hd. cbn [length seq for_in].
    rewrite annotate_turn_ok by (done || lia). cbn [mbind outcome_bind].
    pose proof (instrument_stmt_length s) as Hlen.
    rewrite (app_assoc pre), IH; [| rewrite length_app; lia | lia].
    unfold instrument, warnings. cbn [flat_map].
    rewrite <-!app_assoc, !length_app. do 2 f_equal. cbn. lia.
Qed.
End loop.

(** Enough fuel: [annotate] returns, and what it returns is the block
    rewritten by [instrument], with the warnings of [warnings]. *)
Lemma annotate_returns fuel : ∀ body,
  (depth body < fuel)%nat →
  annotate fuel body = Done (instrument body, warnings body).
Proof.
  induction fuel as [|fuel IH]; intros body Hd; [lia|].
  cbn [annotate].
  pose proof (annotate_loop_ok (annotate fuel) fuel IH body [] 0 0 []) as Hloop.
  cbn [app length] in Hloop. rewrite Hloop by (done || lia). done.
Qed.

(** ** [instrument] meets the contract *)

Lemma instrument_cons s body :
  instrument (s :: body) = instrument_stmt s ++ instrument body.
Proof. reflexivity. Qed.


(** ** Hooks are told apart by the method they call *)






(** ** The two claims on the instrumenter *)





(** * Properties of the accumulator and of the dashboard *)

(** ** Comparisons of rationals *)

Lemma Qc_ltb_lt (x y : Qc) : Qc_ltb x y = true ↔ (x < y)%Qc.
Proof.
  unfold Qc_ltb, Qclt, Qccompare. rewrite Qlt_alt.
  destruct (this x ?= this y)%Q; split; congruence.
Qed.


Lemma Qc_eqb_eq (x y : Qc) : Qc_eqb x y = true ↔ x = y.
Proof.
  unfold Qc_eqb. rewrite Qceq_alt.
  destruct (x ?= y)%Qc; split; congruence.
Qed.

Lemma Qc_eqb_ne (x y : Qc) : Qc_eqb x y = false ↔ x ≠ y.
Proof. rewrite <-not_true_iff_false, Qc_eqb_eq. done. Qed.

(** ** [line_pre] *)

(** C5.  When [line] already has an open start time, [line_pre(line)]
    returns without raising and the start time of [line] is the new
    reading of the clock, in place of the old one; the start times of the
    other lines are kept. *)
Theorem line_pre_overwrites (w : world) (l : Z) (t_old : Qc) :
  begin_time (lineprof w) !! l = Some t_old →
  fst (line_pre l w) = Done tt ∧
  begin_time (lineprof (snd (line_pre l w))) !! l = Some (clock w (ticks w)) ∧
  ∀ l', l' ≠ l →
    begin_time (lineprof (snd (line_pre l w))) !! l'
    = begin_time (lineprof w) !! l'.
Proof.
  intros _. cbn. split; [done|]. split.
  - apply lookup_insert_eq.
  - intros l' Hne. by apply lookup_insert_ne.
Qed.

Lemma line_pre_overwrites_witness :
  fst (line_pre 7 begun) = Done tt ∧
  begin_time (lineprof (snd (line_pre 7 begun))) !! 7
  = Some (clock begun (ticks begun)) ∧
  ∀ l', l' ≠ 7 →
    begin_time (lineprof (snd (line_pre 7 begun))) !! l'
    = begin_time (lineprof begun) !! l'.
Proof. apply (line_pre_overwrites begun 7 (seconds 1)). reflexivity. Defined.


(** ** The calls and their closed forms *)

Lemma clear_cleared w : clear w = (Done tt, cleared w).
Proof. reflexivity. Qed.

Lemma Reporter_report_reported i a b w :
  Reporter_report i a b w = (Done tt, reported (i, a, b) w).
Proof. reflexivity. Qed.

Lemma report_flushed oi w : report oi w = (Done tt, flushed oi w).
Proof. destruct oi; reflexivity. Qed.

Lemma dd_getitem_eq a k w :
  dd_getitem a k w
  = (Done (dd_peek (heap w a) k), set_heap (dd_touch a k (heap w)) w).
Proof.
  destruct w. unfold dd_getitem, dd_peek, dd_touch, set_heap. cbn.
  by destruct (items _ !! k).
Qed.

Lemma bind_done {A B} (m : M A) (k : A → M B) w a w' :
  m w = (Done a, w') → (m ≫= k) w = k a w'.
Proof. unfold mbind, M_bind. by intros ->. Qed.

Lemma bind_raised {A B} (m : M A) (k : A → M B) w e w' :
  m w = (Raised e, w') → (m ≫= k) w = (Raised e, w').
Proof. unfold mbind, M_bind. by intros ->. Qed.

(** Projections of updated states. *)
Ltac simpl_world :=
  cbn [clock ticks heap next lineprof reporter screen published interrupted
       set_ticks set_heap set_next set_lineprof set_reporter set_screen
       set_published set_interrupted
       begin_time line_time line_evals last_report
       set_begin_time set_line_time set_line_evals set_last_report
       lines keywords data dirty scroll height
       set_data set_dirty set_scroll set_height fst snd] in *.

(** Run the first call of a sequence. *)
Ltac step_call :=
  erewrite bind_done;
  [|first [apply dd_getitem_eq | reflexivity]];
  cbn beta; simpl_world.

Lemma line_post_eq l w :
  line_post l w
  = match begin_time (lineprof w) !! l with
    | None =>
        (Raised (KeyError l),
         set_heap (dd_touch (line_time (lineprof w)) l (heap w))
                  (set_ticks (S (ticks w)) w))
    | Some t0 =>
        let interval := VFloat (clock w (ticks w) - last_report (lineprof w)) in
        if num_ltb (VInt 1) interval
        then (Done tt, flushed (Some interval) (posted l t0 w))
        else (Done tt, posted l t0 w)
    end.
Proof.
  unfold line_post. do 4 step_call.
  destruct (begin_time (lineprof w) !! l) as [t0|].
  - do 6 step_call. cbn zeta.
    destruct (num_ltb _ _); [rewrite report_flushed|]; reflexivity.
  - erewrite bind_raised; reflexivity.
Qed.

(** ** Reads and writes of dictionaries, object by object *)

Lemma dd_touch_other a k h a' : a' ≠ a → dd_touch a k h a' = h a'.
Proof.
  intros Hne. unfold dd_touch. destruct (items (h a) !! k); [done|].
  by apply fn_lookup_insert_ne.
Qed.

Lemma dd_touch_factory a k h a' :
  default_factory (dd_touch a k h a') = default_factory (h a').
Proof.
  unfold dd_touch. destruct (items (h a) !! k); [done|].
  destruct (decide (a = a')) as [->|Hne].
  - by rewrite fn_lookup_insert.
  - by rewrite fn_lookup_insert_ne.
Qed.

(** A read does not change what any key maps to. *)
Lemma dd_touch_peek a k h a' l :
  dd_peek (dd_touch a k h a') l = dd_peek (h a') l.
Proof.
  unfold dd_touch. destruct (items (h a) !! k) eqn:Hk; [done|].
  destruct (decide (a = a')) as [->|Hne]; [|by rewrite fn_lookup_insert_ne].
  rewrite fn_lookup_insert. unfold dd_peek. cbn.
  destruct (decide (k = l)) as [->|Hkl].
  - by rewrite lookup_insert_eq, Hk.
  - by rewrite lookup_insert_ne.
Qed.

Lemma dd_touch_grows a k h a' : grows (h a') (dd_touch a k h a').
Proof.
  split; [apply dd_touch_factory|]. split; [|intros l; apply dd_touch_peek].
  unfold dd_touch. destruct (items (h a) !! k) eqn:Hk; [done|].
  destruct (decide (a = a')) as [->|Hne]; [|by rewrite fn_lookup_insert_ne].
  rewrite fn_lookup_insert. cbn. by apply insert_subseteq.
Qed.

Lemma dd_store_other a k v h a' : a' ≠ a → dd_store a k v h a' = h a'.
Proof. intros Hne. by apply fn_lookup_insert_ne. Qed.

Lemma dd_store_same a k v h :
  dd_store a k v h a
  = DefaultDict (default_factory (h a)) (<[k := v]> (items (h a))).
Proof. apply fn_lookup_insert. Qed.

Lemma dd_incr_other a k x h a' : a' ≠ a → dd_incr a k x h a' = h a'.
Proof.
  intros Hne. unfold dd_incr.
  by rewrite dd_store_other, dd_touch_other.
Qed.

Lemma dd_incr_factory a k x h a' :
  default_factory (dd_incr a k x h a') = default_factory (h a').
Proof.
  unfold dd_incr. destruct (decide (a' = a)) as [->|Hne].
  - rewrite dd_store_same. cbn. apply dd_touch_factory.
  - rewrite dd_store_other by done. apply dd_touch_factory.
Qed.

(** [d[k] += x] adds [x] to what [k] maps to. *)
Lemma dd_incr_peek a k x h :
  dd_peek (dd_incr a k x h a) k = num_add (dd_peek (h a) k) x.
Proof.
  unfold dd_incr. rewrite dd_store_same. unfold dd_peek at 1. cbn.
  by rewrite lookup_insert_eq.
Qed.

Lemma dd_incr_peek_ne a k x h l :
  l ≠ k → dd_peek (dd_incr a k x h a) l = dd_peek (h a) l.
Proof.
  intros Hne. unfold dd_incr. rewrite dd_store_same. unfold dd_peek at 1. cbn.
  rewrite lookup_insert_ne by done.
  rewrite <-(dd_touch_peek a k h a l). done.
Qed.

(** What a new object does to the ones already there. *)
Lemma cleared_heap_old w a :
  (a < next w)%nat → heap (cleared w) a = heap w a.
Proof.
  intros Ha. cbn. rewrite !fn_lookup_insert_ne by lia. done.
Qed.

Lemma flushed_heap_old oi w a :
  (a < next w)%nat → heap (flushed oi w) a = heap w a.
Proof.
  intros Ha. unfold flushed. rewrite cleared_heap_old; destruct oi; done.
Qed.

(** ** [line_post], step by step *)

(** The two dictionaries after the additions of [line_post]. *)
Lemma posted_time_peek l t0 w :
  store_ok w →
  dd_peek (heap (posted l t0 w) (line_time (lineprof w))) l
  = num_add (dd_peek (heap w (line_time (lineprof w))) l)
            (VFloat (clock w (ticks w) - t0)).
Proof.
  intros Hok. unfold posted. simpl_world.
  rewrite dd_incr_other by apply Hok. apply dd_incr_peek.
Qed.

Lemma posted_evals_peek l t0 w :
  store_ok w →
  dd_peek (heap (posted l t0 w) (line_evals (lineprof w))) l
  = num_add (dd_peek (heap w (line_evals (lineprof w))) l) (VInt 1).
Proof.
  intros Hok. unfold posted. simpl_world.
  rewrite dd_incr_peek. do 2 f_equal.
  apply dd_incr_other. intros Heq. by apply Hok.
Qed.

(** Whether or not it publishes, [line_post] leaves the objects that
    exist as its additions made them. *)
Lemma line_post_heap l t0 w a :
  begin_time (lineprof w) !! l = Some t0 →
  (a < next w)%nat →
  heap (snd (line_post l w)) a = heap (posted l t0 w) a.
Proof.
  intros Hl Ha. rewrite line_post_eq, Hl. cbn zeta.
  destruct (num_ltb _ _); cbn [snd]; [|done].
  by apply flushed_heap_old.
Qed.

Lemma line_post_done l t0 w :
  begin_time (lineprof w) !! l = Some t0 → fst (line_post l w) = Done tt.
Proof.
  intros Hl. rewrite line_post_eq, Hl. cbn zeta. by destruct (num_ltb _ _).
Qed.

(** ** [line_post] *)


(** ** The invariant of the store *)

Lemma line_pre_eq l w :
  line_pre l w
  = (Done tt,
     set_lineprof (set_begin_time (<[l := clock w (ticks w)]>
                                     (begin_time (lineprof w))) (lineprof w))
                  (set_ticks (S (ticks w)) w)).
Proof. reflexivity. Qed.

Lemma exit_pre_eq l w :
  exit_pre l w
  = (Done tt,
     set_heap (dd_incr (line_evals (lineprof w)) l (VInt 1) (heap w)) w).
Proof. unfold exit_pre. do 2 step_call. reflexivity. Qed.

(** [store_ok] looks at the names of objects only. *)
Lemma store_ok_names w w' :
  next w' = next w →
  line_time (lineprof w') = line_time (lineprof w) →
  line_evals (lineprof w') = line_evals (lineprof w) →
  data (reporter w') = data (reporter w) →
  published w' = published w →
  store_ok w → store_ok w'.
Proof.
  intros Hn Ht He Hd Hp [? ? ? ? ?].
  split; rewrite ?Hn, ?Ht, ?He, ?Hd, ?Hp; done.
Qed.

Lemma store_ok_flushed oi w : store_ok w → store_ok (flushed oi w).
Proof.
  intros [Ht He Hne Hd Hp].
  assert (next (report_clock oi w) = next w) as Hn by (by destruct oi).
  assert (lineprof (report_clock oi w) = lineprof w) as Hl by (by destruct oi).
  assert (published (report_clock oi w) = published w) as Hpub
    by (by destruct oi).
  split; unfold flushed; cbn; rewrite ?Hn, ?Hl, ?Hpub.
  - lia.
  - lia.
  - lia.
  - intros a [->| ->]; lia.
  - intros i a b [Hin|Hin%list_elem_of_singleton]%elem_of_app.
    + destruct (Hp i a b Hin) as [(? & _) (? & _)]. lia.
    + injection Hin as -> -> ->. lia.
Qed.

Lemma boot_booted clk code_lines spans :
  boot clk code_lines spans = booted clk code_lines spans.
Proof. reflexivity. Qed.

Lemma store_ok_boot clk code_lines spans : store_ok (boot clk code_lines spans).
Proof.
  rewrite boot_booted. split; cbn; try lia.
  intros i a b Hin. by apply elem_of_nil in Hin.
Qed.

(** ** Calls that keep a relation between states *)

Section keeps.
Context (R : world → world → Prop) `{!PreOrder R}.

Lemma keeps_ret {A} (a : A) : keeps R (mret a).
Proof. intros w. cbn. reflexivity. Qed.

Lemma keeps_raise {A} e : keeps R (raise e : M A).
Proof. intros w. cbn. reflexivity. Qed.

Lemma keeps_get {A} (f : world → A) : keeps R (get f).
Proof. intros w. cbn. reflexivity. Qed.

Lemma keeps_bind {A B} (m : M A) (k : A → M B) :
  keeps R m → (∀ a, keeps R (k a)) → keeps R (m ≫= k).
Proof.
  intros Hm Hk w. specialize (Hm w). unfold mbind, M_bind.
  destruct (m w) as [[a| |] w1]; cbn in *; [|done..].
  etrans; [exact Hm|apply Hk].
Qed.

Lemma keeps_if {A} (b : bool) (m1 m2 : M A) :
  keeps R m1 → keeps R m2 → keeps R (if b then m1 else m2).
Proof. by destruct b. Qed.

Lemma keeps_for_each {A} (xs : list A) (f : A → M unit) :
  (∀ x, keeps R (f x)) → keeps R (for_each xs f).
Proof.
  intros Hf. induction xs as [|x xs IH]; cbn [for_each].
  - apply keeps_ret.
  - apply keeps_bind; [apply Hf|]. intros _. apply IH.
Qed.
End keeps.

#[export] Instance scrolls_only_preorder : PreOrder scrolls_only.
Proof.
  split.
  - intros w. by split.
  - intros w1 w2 w3 [] []. split; congruence.
Qed.

#[export] Instance grows_preorder : PreOrder grows.
Proof.
  split.
  - intros d. by repeat split.
  - intros d1 d2 d3 (Hf1 & Hs1 & Hp1) (Hf2 & Hs2 & Hp2). repeat split.
    + congruence.
    + by etrans.
    + intros k. by rewrite Hp2, Hp1.
Qed.

#[export] Instance reads_only_preorder a b : PreOrder (reads_only a b).
Proof.
  split.
  - intros w. by split.
  - intros w1 w2 w3 [? ? ? ? ? ? ? Hh1 Hp1] [? ? ? ? ? ? ? Hh2 Hp2].
    split; try congruence.
    + intros c ??. rewrite Hh2, Hh1 by done. done.
    + intros c. etrans; [apply Hp1|apply Hp2].
Qed.

(** ** The input loop changes the offset only *)

Lemma keeps_scroll_update (f : Reporter → Z) :
  keeps scrolls_only (update_reporter (λ r, set_scroll (f r) r)).
Proof. intros w. by split. Qed.

Lemma input_key_scrolls c : keeps scrolls_only (input_key c).
Proof.
  unfold input_key.
  repeat (apply (keeps_bind scrolls_only); [|intros _]);
    (apply (keeps_if scrolls_only); [|apply (keeps_ret scrolls_only)]);
    try apply keeps_scroll_update.
  intros w. by split.
Qed.

Lemma clamp_scroll_scrolls : keeps scrolls_only clamp_scroll.
Proof.
  unfold clamp_scroll. apply (keeps_bind scrolls_only); [|intros _].
  - intros w. cbn. by destruct (_ <? _); split.
  - intros w. cbn. by destruct (_ <? _); split.
Qed.

Lemma input_turn_scrolls c : keeps scrolls_only (input_turn c).
Proof.
  unfold input_turn.
  apply (keeps_bind scrolls_only); [apply input_key_scrolls|intros _].
  apply (keeps_bind scrolls_only); [apply clamp_scroll_scrolls|intros _].
  intros w. by split.
Qed.

(** ** The drawing loop reads the published dictionaries only *)

Lemma dd_getitem_reads a b c k :
  c = a ∨ c = b → keeps (reads_only a b) (dd_getitem c k).
Proof.
  intros Hc w. rewrite dd_getitem_eq. cbn [snd]. split; simpl_world; try done.
  - intros a' Ha Hb. apply dd_touch_other. destruct Hc; congruence.
  - intros a'. apply dd_touch_grows.
Qed.

Lemma truediv_reads a b x y : keeps (reads_only a b) (truediv x y).
Proof.
  unfold truediv. apply (keeps_if (reads_only a b)).
  - apply (keeps_raise (reads_only a b)).
  - apply (keeps_ret (reads_only a b)).
Qed.

Lemma addstr_reads a b y x text pair :
  keeps (reads_only a b) (addstr y x text pair).
Proof. intros w. by split. Qed.

Lemma draw_line_reads h interval a b item :
  keeps (reads_only a b) (draw_line h interval a b item).
Proof.
  destruct item as [lineno line]. unfold draw_line.
  apply (keeps_bind (reads_only a b)); [apply (keeps_get (reads_only a b))|].
  intros sc. apply (keeps_if (reads_only a b));
    [apply (keeps_ret (reads_only a b))|].
  apply (keeps_bind (reads_only a b)); [apply dd_getitem_reads; by left|].
  intros t. apply (keeps_bind (reads_only a b)); [apply truediv_reads|].
  intros share. apply (keeps_bind (reads_only a b));
    [apply dd_getitem_reads; by right|].
  intros n. apply (keeps_bind (reads_only a b)); [apply truediv_reads|].
  intros fr. apply (keeps_bind (reads_only a b)); [apply addstr_reads|].
  intros _. apply (keeps_bind (reads_only a b)); [apply addstr_reads|].
  intros _. apply (keeps_bind (reads_only a b)).
  { repeat apply (keeps_if (reads_only a b)); apply addstr_reads. }
  intros _. apply (keeps_bind (reads_only a b));
    [apply (keeps_get (reads_only a b))|].
  intros [kws|]; [|apply (keeps_raise (reads_only a b))].
  apply (keeps_for_each (reads_only a b)). intros [idx kw].
  apply addstr_reads.
Qed.

Lemma draw_turn_draws h width w : draws_only w (snd (draw_turn h width w)).
Proof.
  unfold draw_turn. do 2 step_call.
  destruct (data (reporter w)) as [[interval a] b] eqn:Hdata.
  do 2 step_call.
  pose proof (keeps_for_each (reads_only a b) (enumerate (lines (reporter w)) 1)
                (draw_line h interval a b)
                (draw_line_reads h interval a b)
                (set_screen [] (set_reporter (set_height h (reporter w)) w)))
    as Hloop.
  unfold mbind, M_bind.
  destruct (for_each _ _ _) as [[[]| |] w2];
    unfold update_reporter, update; cbn [snd] in *;
    destruct Hloop as [? ? ? ? Hrep ? ? Hheap Hgrows]; simpl_world;
    split; simpl_world; rewrite ?Hrep, ?Hdata; simpl_world; done.
Qed.

(** ** The invariant of the store holds in every reachable state *)

Lemma store_ok_posted l t0 w : store_ok w → store_ok (posted l t0 w).
Proof. by apply (store_ok_names w). Qed.

Lemma store_ok_step w ev : store_ok w → store_ok (step w ev).
Proof.
  intros Hok. unfold step. destruct ev as [l|l|l| |c|h width]; cbn [handle].
  - rewrite line_pre_eq. by apply (store_ok_names w).
  - rewrite exit_pre_eq. by apply (store_ok_names w).
  - rewrite line_post_eq. destruct (begin_time _ !! l) as [t0|].
    + cbn zeta. destruct (num_ltb _ _); cbn [snd].
      * by apply store_ok_flushed, store_ok_posted.
      * by apply store_ok_posted.
    + by apply (store_ok_names w).
  - rewrite report_flushed. by apply store_ok_flushed.
  - destruct (input_turn_scrolls c w). apply (store_ok_names w); congruence.
  - destruct (draw_turn_draws h width w).
    apply (store_ok_names w); congruence.
Qed.

Lemma run_snoc evs ev w : run (evs ++ [ev]) w = step (run evs w) ev.
Proof. unfold run. by rewrite foldl_app. Qed.

Lemma run_cons ev evs w : run (ev :: evs) w = run evs (step w ev).
Proof. reflexivity. Qed.

Lemma store_ok_run evs : ∀ w, store_ok w → store_ok (run evs w).
Proof.
  induction evs as [|ev evs IH]; intros w Hok; [done|].
  rewrite run_cons. by apply IH, store_ok_step.
Qed.

Lemma store_ok_begun : store_ok begun.
Proof. apply store_ok_step, store_ok_boot. Qed.


(** ** The table of start times *)

Lemma step_begin_time w ev l :
  is_Some (begin_time (lineprof (step w ev)) !! l)
  ↔ ev = LinePre l ∨ is_Some (begin_time (lineprof w) !! l).
Proof.
  unfold step. destruct ev as [l'|l'|l'| |c|h width]; cbn [handle].
  - rewrite line_pre_eq. simpl_world.
    destruct (decide (l' = l)) as [->|Hne].
    + rewrite lookup_insert_eq. split; [by left|by eexists].
    + rewrite lookup_insert_ne by done. split; [by right|].
      intros [[=]|?]; done.
  - rewrite exit_pre_eq. simpl_world. split; [by right|]. by intros [|].
  - rewrite line_post_eq. destruct (begin_time (lineprof w) !! l') as [t0|];
      [cbn zeta; destruct (num_ltb _ _)|];
      simpl_world; (split; [by right|]); by intros [|].
  - rewrite report_flushed. destruct w; cbn.
    split; [by right|]. by intros [|].
  - destruct (input_turn_scrolls c w) as [? ? ? ? -> ? ? ? ? ? ?].
    split; [by right|]. by intros [|].
  - destruct (draw_turn_draws h width w) as [? ? ? -> ? ? ? ? ? ? ? ?].
    split; [by right|]. by intros [|].
Qed.

Lemma run_begin_time evs : ∀ w l,
  is_Some (begin_time (lineprof (run evs w)) !! l)
  ↔ LinePre l ∈ evs ∨ is_Some (begin_time (lineprof w) !! l).
Proof.
  induction evs as [|ev evs IH]; intros w l.
  - cbn. rewrite elem_of_nil. tauto.
  - rewrite run_cons, IH, step_begin_time, elem_of_cons.
    split; [intros [?|[?|?]]|intros [[?|?]|?]]; auto.
Qed.

Example line_post_before_line_pre :
  fst (line_post 3 (boot seconds [] [])) = Raised (KeyError 3).
Proof. reflexivity. Qed.

Example line_post_after_flush :
  fst (line_post 3 (run [LinePre 3; Flush] (boot seconds [] []))) = Done tt.
Proof. vm_compute. reflexivity. Qed.

(** C9.  [line_post(line)] raises [KeyError] when [line_pre(line)] was
    never called, and not otherwise: the table of start times is filled by
    [line_pre] alone and is never emptied, so after any history of the
    process in which [line_pre(line)] occurs, in whatever window, the
    lookup succeeds and [line_post(line)] returns. *)
Theorem line_post_needs_line_pre
    (clk : nat → Qc) (code_lines : list string)
    (spans : list (list (Z * string))) (evs : list event) (l : Z) :
  (LinePre l ∈ evs →
     fst (line_post l (run evs (boot clk code_lines spans))) = Done tt) ∧
  (LinePre l ∉ evs →
     fst (line_post l (run evs (boot clk code_lines spans)))
     = Raised (KeyError l)).
Proof.
  pose proof (run_begin_time evs (boot clk code_lines spans) l) as Hdom.
  rewrite line_post_eq. split; intros Hin.
  - destruct Hdom as [_ [t0 ->]]; [by left|].
    cbn zeta. by destruct (num_ltb _ _).
  - destruct (begin_time _ !! l) as [t0|] eqn:Hl; [|done].
    destruct Hdom as [[?|[? Hboot]] _]; [by eexists|done|].
    rewrite boot_booted in Hboot. cbn in Hboot. by rewrite lookup_empty in Hboot.
Qed.

(** ** [report] *)

Lemma dd_peek_empty f l : dd_peek (DefaultDict f ∅) l = default_value f.
Proof. unfold dd_peek. cbn. by rewrite lookup_empty. Qed.

(** C10.  [report] gives the accumulator two new dictionaries and a new
    publish clock and leaves the table of start times as it was (and the
    offset, the height and the lines of the dashboard); so when [line_pre]
    ran for a line before the [report] and [line_post] runs after it, the
    whole time elapsed since that [line_pre] is the line's cumulative time
    in the new window, with one evaluation. *)
Theorem report_keeps_begin_time
    (w : world) (interval : option num) (l : Z) (t0 : Qc) :
  store_ok w →
  begin_time (lineprof w) !! l = Some t0 →
  let w1 := snd (report interval w) in
  let now := clock w1 (ticks w1) in
  let w2 := snd (line_post l w1) in
  begin_time (lineprof w1) = begin_time (lineprof w) ∧
  scroll (reporter w1) = scroll (reporter w) ∧
  height (reporter w1) = height (reporter w) ∧
  lines (reporter w1) = lines (reporter w) ∧
  heap w1 (line_time (lineprof w1)) = DefaultDict float_factory ∅ ∧
  heap w1 (line_evals (lineprof w1)) = DefaultDict int_factory ∅ ∧
  fst (line_post l w1) = Done tt ∧
  dd_peek (heap w2 (line_time (lineprof w1))) l = VFloat (now - t0) ∧
  dd_peek (heap w2 (line_evals (lineprof w1))) l = VInt 1.
Proof.
  intros Hok Hl w1 now w2.
  assert (begin_time (lineprof w1) = begin_time (lineprof w)) as Hbegin.
  { subst w1. rewrite report_flushed. by destruct interval. }
  assert (heap w1 (line_time (lineprof w1)) = DefaultDict float_factory ∅)
    as Htime.
  { subst w1. rewrite report_flushed. cbn.
    rewrite fn_lookup_insert_ne by lia. by rewrite fn_lookup_insert. }
  assert (heap w1 (line_evals (lineprof w1)) = DefaultDict int_factory ∅)
    as Hevals.
  { subst w1. rewrite report_flushed. cbn. by rewrite fn_lookup_insert. }
  assert (store_ok w1) as Hok1.
  { subst w1. rewrite report_flushed. by apply store_ok_flushed. }
  assert (begin_time (lineprof w1) !! l = Some t0) as Hl1 by (by rewrite Hbegin).
  assert (dd_peek (heap w2 (line_time (lineprof w1))) l
          = num_add (dd_peek (heap w1 (line_time (lineprof w1))) l)
                    (VFloat (now - t0))) as Ht.
  { subst w2. rewrite (line_post_heap l t0) by (done || apply Hok1).
    by apply posted_time_peek. }
  assert (dd_peek (heap w2 (line_evals (lineprof w1))) l
          = num_add (dd_peek (heap w1 (line_evals (lineprof w1))) l) (VInt 1))
    as He.
  { subst w2. rewrite (line_post_heap l t0) by (done || apply Hok1).
    by apply posted_evals_peek. }
  assert (fst (line_post l w1) = Done tt) as Hdone by (by eapply line_post_done).
  repeat split; try done.
  - subst w1. rewrite report_flushed. by destruct interval.
  - subst w1. rewrite report_flushed. by destruct interval.
  - subst w1. rewrite report_flushed. by destruct interval.
  - rewrite Ht, Htime, dd_peek_empty. cbn. by rewrite Qcplus_0_l.
  - by rewrite He, Hevals, dd_peek_empty.
Qed.

Lemma report_keeps_begin_time_witness :
  begin_time (lineprof (snd (report None begun))) = begin_time (lineprof begun) ∧
  scroll (reporter (snd (report None begun))) = scroll (reporter begun) ∧
  height (reporter (snd (report None begun))) = height (reporter begun) ∧
  lines (reporter (snd (report None begun))) = lines (reporter begun) ∧
  heap (snd (report None begun)) (line_time (lineprof (snd (report None begun))))
    = DefaultDict float_factory ∅ ∧
  heap (snd (report None begun)) (line_evals (lineprof (snd (report None begun))))
    = DefaultDict int_factory ∅ ∧
  fst (line_post 7 (snd (report None begun))) = Done tt ∧
  dd_peek (heap (snd (line_post 7 (snd (report None begun))))
                (line_time (lineprof (snd (report None begun))))) 7
    = VFloat (clock (snd (report None begun)) (ticks (snd (report None begun)))
              - seconds 1) ∧
  dd_peek (heap (snd (line_post 7 (snd (report None begun))))
                (line_evals (lineprof (snd (report None begun))))) 7
    = VInt 1.
Proof.
  apply (report_keeps_begin_time begun None 7 (seconds 1)).
  - exact store_ok_begun.
  - reflexivity.
Defined.

(** ** Accumulated values are never negative *)

Lemma to_float_add x y : to_float (num_add x y) = (to_float x + to_float y)%Qc.
Proof. destruct x, y; cbn; try done. apply Z2Qc_inj_add. Qed.

Lemma Qc_nonneg_add (x y : Qc) : (0 ≤ x → 0 ≤ y → 0 ≤ x + y)%Qc.
Proof.
  intros Hx Hy. rewrite <-(Qcplus_0_l 0). by apply Qcplus_le_compat.
Qed.

Lemma Qc_nonneg_sub (x y : Qc) : (y ≤ x → 0 ≤ x - y)%Qc.
Proof. intros H. by apply Qcle_minus_iff in H. Qed.

Lemma default_value_nonneg f : (0 ≤ to_float (default_value f))%Qc.
Proof. destruct f; cbn; [done|]. by rewrite Z2Qc_inj_0. Qed.

Lemma one_nonneg : (0 ≤ to_float (VInt 1))%Qc.
Proof. cbn. rewrite <-Z2Qc_inj_0. by apply Z2Qc_inj_le. Qed.

Lemma dd_peek_nonneg d k : dd_nonneg d → (0 ≤ to_float (dd_peek d k))%Qc.
Proof.
  intros Hd. unfold dd_peek. destruct (items d !! k) as [v|] eqn:Hk; cbn.
  - by eapply Hd.
  - apply default_value_nonneg.
Qed.

Lemma dd_nonneg_empty f : dd_nonneg (DefaultDict f ∅).
Proof. intros k v. cbn. by rewrite lookup_empty. Qed.

Lemma dd_nonneg_touch a k h a' : dd_nonneg (h a') → dd_nonneg (dd_touch a k h a').
Proof.
  intros Hd. unfold dd_touch. destruct (items (h a) !! k) eqn:Hk; [done|].
  destruct (decide (a = a')) as [->|Hne]; [|by rewrite fn_lookup_insert_ne].
  rewrite fn_lookup_insert. intros l v. cbn.
  destruct (decide (k = l)) as [->|Hkl].
  - rewrite lookup_insert_eq. intros [= <-]. apply default_value_nonneg.
  - rewrite lookup_insert_ne by done. apply Hd.
Qed.

Lemma dd_nonneg_incr a k x h a' :
  dd_nonneg (h a') → (0 ≤ to_float x)%Qc → dd_nonneg (dd_incr a k x h a').
Proof.
  intros Hd Hx. unfold dd_incr.
  destruct (decide (a' = a)) as [->|Hne].
  - rewrite dd_store_same. intros l v. cbn.
    destruct (decide (k = l)) as [->|Hkl].
    + rewrite lookup_insert_eq. intros [= <-]. rewrite to_float_add.
      apply Qc_nonneg_add; [|done]. by apply dd_peek_nonneg.
    + rewrite lookup_insert_ne by done. by apply dd_nonneg_touch.
  - rewrite dd_store_other by done. by apply dd_nonneg_touch.
Qed.

(** [acc_ok] looks at the clock, the accumulator and its two dictionaries. *)
Lemma acc_ok_same w w' :
  clock w' = clock w → ticks w' = ticks w → lineprof w' = lineprof w →
  heap w' (line_time (lineprof w)) = heap w (line_time (lineprof w)) →
  heap w' (line_evals (lineprof w)) = heap w (line_evals (lineprof w)) →
  acc_ok w → acc_ok w'.
Proof.
  intros Hc Ht Hl Hht Hhe [? ? ?].
  split; rewrite ?Hc, ?Ht, ?Hl, ?Hht, ?Hhe; done.
Qed.

Lemma begin_le_later w (n : nat) l t :
  monotone (clock w) → acc_ok w → (ticks w ≤ n)%nat →
  begin_time (lineprof w) !! l = Some t → (t ≤ clock w n)%Qc.
Proof.
  intros Hmono Hacc Hn Hl. eapply Qcle_trans; [by eapply ok_begin|].
  by apply Hmono.
Qed.

Lemma acc_ok_flushed oi w :
  monotone (clock w) → acc_ok w → acc_ok (flushed oi w).
Proof.
  intros Hmono Hacc. split.
  - cbn. rewrite fn_lookup_insert_ne by lia. rewrite fn_lookup_insert.
    apply dd_nonneg_empty.
  - cbn. rewrite fn_lookup_insert. apply dd_nonneg_empty.
  - intros l t Hl.
    assert (clock (flushed oi w) = clock w) as -> by (by destruct oi).
    assert (begin_time (lineprof (flushed oi w)) = begin_time (lineprof w))
      as Heq by (by destruct oi).
    rewrite Heq in Hl. eapply begin_le_later; [done..| |done].
    destruct oi; cbn; lia.
Qed.

Lemma acc_ok_posted l t0 w :
  monotone (clock w) → store_ok w → acc_ok w →
  begin_time (lineprof w) !! l = Some t0 →
  acc_ok (posted l t0 w).
Proof.
  intros Hmono Hok Hacc Hl. split; unfold posted; simpl_world.
  - rewrite dd_incr_other by apply Hok.
    apply dd_nonneg_incr; [apply Hacc|]. cbn.
    apply Qc_nonneg_sub. by eapply ok_begin.
  - apply dd_nonneg_incr; [|apply one_nonneg].
    rewrite dd_incr_other; [apply Hacc|]. intros Heq. by apply Hok.
  - intros l' t Hl'. eapply begin_le_later; [done..| |done]. lia.
Qed.

Lemma acc_not_data w :
  store_ok w →
  line_time (lineprof w) ≠ (data (reporter w)).1.2 ∧
  line_time (lineprof w) ≠ (data (reporter w)).2 ∧
  line_evals (lineprof w) ≠ (data (reporter w)).1.2 ∧
  line_evals (lineprof w) ≠ (data (reporter w)).2.
Proof.
  intros [_ _ _ Hdata _].
  destruct (Hdata _ (or_introl eq_refl)) as (_ & ? & ?).
  destruct (Hdata _ (or_intror eq_refl)) as (_ & ? & ?).
  repeat split; congruence.
Qed.

Lemma clock_step w ev : clock (step w ev) = clock w.
Proof.
  unfold step. destruct ev as [l|l|l| |c|h width]; cbn [handle].
  - by rewrite line_pre_eq.
  - by rewrite exit_pre_eq.
  - rewrite line_post_eq. destruct (begin_time _ !! l); [|done].
    cbn zeta. by destruct (num_ltb _ _).
  - rewrite report_flushed. by destruct w.
  - apply input_turn_scrolls.
  - apply draw_turn_draws.
Qed.

Lemma acc_ok_step w ev :
  monotone (clock w) → store_ok w → acc_ok w → acc_ok (step w ev).
Proof.
  intros Hmono Hok Hacc. unfold step.
  destruct ev as [l|l|l| |c|h width]; cbn [handle].
  - rewrite line_pre_eq. split; simpl_world; [apply Hacc..|].
    intros l' t. destruct (decide (l = l')) as [->|Hne].
    + rewrite lookup_insert_eq. intros [= <-]. apply Hmono. lia.
    + rewrite lookup_insert_ne by done. intros Hl'.
      eapply begin_le_later; [done..| |done]. lia.
  - rewrite exit_pre_eq. split; simpl_world.
    + rewrite dd_incr_other by apply Hok. apply Hacc.
    + apply dd_nonneg_incr; [apply Hacc|apply one_nonneg].
    + apply Hacc.
  - rewrite line_post_eq. destruct (begin_time _ !! l) as [t0|] eqn:Hl.
    + cbn zeta. destruct (num_ltb _ _); cbn [snd].
      * apply acc_ok_flushed; [done|]. by apply acc_ok_posted.
      * by apply acc_ok_posted.
    + split; simpl_world.
      * apply dd_nonneg_touch, Hacc.
      * rewrite dd_touch_other; [apply Hacc|]. intros Heq. by apply Hok.
      * intros l' t Hl'. eapply begin_le_later; [done..| |done]. lia.
  - rewrite report_flushed. by apply acc_ok_flushed.
  - destruct (input_turn_scrolls c w).
    apply (acc_ok_same w); congruence.
  - destruct (draw_turn_draws h width w) as [? ? ? ? ? ? ? ? ? ? Hheap ?].
    destruct (acc_not_data w Hok) as (? & ? & ? & ?).
    apply (acc_ok_same w); try congruence; by apply Hheap.
Qed.

Lemma acc_ok_boot clk code_lines spans : acc_ok (boot clk code_lines spans).
Proof.
  rewrite boot_booted. split; cbn.
  - rewrite fn_lookup_insert_ne by lia. rewrite fn_lookup_insert.
    apply dd_nonneg_empty.
  - rewrite fn_lookup_insert. apply dd_nonneg_empty.
  - intros l t. by rewrite lookup_empty.
Qed.

Lemma clock_run evs : ∀ w, clock (run evs w) = clock w.
Proof.
  induction evs as [|ev evs IH]; intros w; [done|].
  by rewrite run_cons, IH, clock_step.
Qed.

Lemma acc_ok_run evs : ∀ w,
  monotone (clock w) → store_ok w → acc_ok w → acc_ok (run evs w).
Proof.
  induction evs as [|ev evs IH]; intros w Hmono Hok Hacc; [done|].
  rewrite run_cons. apply IH.
  - by rewrite clock_step.
  - by apply store_ok_step.
  - by apply acc_ok_step.
Qed.

Lemma monotone_seconds : monotone seconds.
Proof.
  intros i j Hij. unfold seconds.
  apply (proj1 (Z2Qc_inj_le (Z.of_nat i) (Z.of_nat j))). lia.
Qed.

(** C4.  In every state the process can reach, on a clock that never goes
    back, a call of [report] publishes the triple made of the interval (the
    one it is given, as [line_post] does, or else the time since the last
    publish) and of the accumulator's two dictionaries as they are, sets
    the dirty flag, then gives the accumulator two new empty dictionaries
    and reads the publish clock anew; and every value of the two published
    dictionaries is at least zero. *)
Theorem report_publishes_and_resets
    (clk : nat → Qc) (code_lines : list string)
    (spans : list (list (Z * string))) (evs : list event)
    (interval : option num) :
  monotone clk →
  let w := run evs (boot clk code_lines spans) in
  let total_time := line_time (lineprof w) in
  let evals := line_evals (lineprof w) in
  let since_last :=
    match interval with
    | Some i => i
    | None => VFloat (clock w (ticks w) - last_report (lineprof w))
    end in
  let w' := snd (report interval w) in
  fst (report interval w) = Done tt ∧
  data (reporter w') = (since_last, total_time, evals) ∧
  published w' = published w ++ [(since_last, total_time, evals)] ∧
  dirty (reporter w') = true ∧
  heap w' total_time = heap w total_time ∧
  heap w' evals = heap w evals ∧
  heap w' (line_time (lineprof w')) = DefaultDict float_factory ∅ ∧
  heap w' (line_evals (lineprof w')) = DefaultDict int_factory ∅ ∧
  (ticks w < ticks w')%nat ∧
  last_report (lineprof w') = clock w (pred (ticks w')) ∧
  dd_nonneg (heap w' total_time) ∧
  dd_nonneg (heap w' evals).
Proof.
  intros Hmono w total_time evals since_last w'.
  assert (store_ok w) as Hok by apply store_ok_run, store_ok_boot.
  assert (acc_ok w) as Hacc.
  { apply acc_ok_run; [|apply store_ok_boot|apply acc_ok_boot].
    by rewrite boot_booted. }
  assert (heap w' total_time = heap w total_time) as Ht.
  { subst w'. rewrite report_flushed. apply flushed_heap_old, Hok. }
  assert (heap w' evals = heap w evals) as He.
  { subst w'. rewrite report_flushed. apply flushed_heap_old, Hok. }
  rewrite Ht, He. subst w'. rewrite report_flushed. cbn [fst snd].
  split; [done|].
  split; [by destruct interval|].
  split; [by destruct interval|].
  split; [done|]. split; [done|]. split; [done|].
  split.
  { cbn. rewrite fn_lookup_insert_ne by lia. by rewrite fn_lookup_insert. }
  split; [cbn; by rewrite fn_lookup_insert|].
  split; [destruct interval; cbn; lia|].
  split; [by destruct interval|].
  split; apply Hacc.
Qed.

Lemma report_publishes_and_resets_witness :
  let w := run [LinePre 7; LinePost 7] (boot seconds [] []) in
  let total_time := line_time (lineprof w) in
  let evals := line_evals (lineprof w) in
  let since_last := VFloat (clock w (ticks w) - last_report (lineprof w)) in
  let w' := snd (report None w) in
  fst (report None w) = Done tt ∧
  data (reporter w') = (since_last, total_time, evals) ∧
  published w' = published w ++ [(since_last, total_time, evals)] ∧
  dirty (reporter w') = true ∧
  heap w' total_time = heap w total_time ∧
  heap w' evals = heap w evals ∧
  heap w' (line_time (lineprof w')) = DefaultDict float_factory ∅ ∧
  heap w' (line_evals (lineprof w')) = DefaultDict int_factory ∅ ∧
  (ticks w < ticks w')%nat ∧
  last_report (lineprof w') = clock w (pred (ticks w')) ∧
  dd_nonneg (heap w' total_time) ∧
  dd_nonneg (heap w' evals).
Proof.
  apply (report_publishes_and_resets seconds [] [] [LinePre 7; LinePost 7] None).
  exact monotone_seconds.
Defined.

(** ** Published dictionaries *)

Lemma frozen_flushed oi w a : frozen w a → frozen (flushed oi w) a.
Proof.
  intros (Hlt & _ & _).
  assert (next (report_clock oi w) = next w) as Hn by (by destruct oi).
  unfold frozen, flushed. cbn. rewrite Hn. lia.
Qed.

Lemma frozen_names w w' a :
  next w' = next w → lineprof w' = lineprof w → frozen w a → frozen w' a.
Proof. unfold frozen. by intros -> ->. Qed.

(** An event leaves a dictionary that is not the accumulator's as it is,
    up to keys added with the default value. *)
Lemma step_frozen w ev a :
  store_ok w → frozen w a →
  grows (heap w a) (heap (step w ev) a) ∧ frozen (step w ev) a.
Proof.
  intros Hok Hfr. pose proof Hfr as (Hlt & Hnt & Hne). unfold step.
  destruct ev as [l|l|l| |c|h width]; cbn [handle].
  - rewrite line_pre_eq. split; [reflexivity|done].
  - rewrite exit_pre_eq. simpl_world. split; [|done].
    rewrite dd_incr_other by done. reflexivity.
  - rewrite line_post_eq. destruct (begin_time _ !! l) as [t0|].
    + assert (heap (posted l t0 w) a = heap w a) as Hp
        by (cbn; by rewrite !dd_incr_other).
      cbn zeta. destruct (num_ltb _ _); cbn [snd].
      * rewrite flushed_heap_old by done. rewrite Hp.
        split; [reflexivity|]. by apply frozen_flushed.
      * rewrite Hp. split; [reflexivity|done].
    + simpl_world. split; [|done]. by rewrite dd_touch_other.
  - rewrite report_flushed. cbn [snd]. rewrite flushed_heap_old by done.
    split; [reflexivity|]. by apply frozen_flushed.
  - destruct (input_turn_scrolls c w) as [? ? Hh Hn Hl ? ? ? ? ? ?].
    rewrite Hh. split; [reflexivity|]. by apply (frozen_names w).
  - destruct (draw_turn_draws h width w) as [? ? Hn Hl ? ? ? ? ? ? ? Hg].
    split; [apply Hg|]. by apply (frozen_names w).
Qed.

Lemma run_frozen evs : ∀ w a,
  store_ok w → frozen w a → grows (heap w a) (heap (run evs w) a).
Proof.
  induction evs as [|ev evs IH]; intros w a Hok Hfr; [reflexivity|].
  rewrite run_cons. destruct (step_frozen w ev a Hok Hfr) as [Hg Hfr'].
  etrans; [exact Hg|]. apply IH; [by apply store_ok_step|done].
Qed.

(** The record of publications only grows. *)
Lemma step_published w ev x : x ∈ published w → x ∈ published (step w ev).
Proof.
  intros Hin. unfold step. destruct ev as [l|l|l| |c|h width]; cbn [handle].
  - by rewrite line_pre_eq.
  - by rewrite exit_pre_eq.
  - rewrite line_post_eq. destruct (begin_time _ !! l) as [t0|]; [|done].
    cbn zeta. destruct (num_ltb _ _); [|done].
    cbn. apply elem_of_app. by left.
  - rewrite report_flushed. cbn. apply elem_of_app. left. by destruct w.
  - destruct (input_turn_scrolls c w). congruence.
  - destruct (draw_turn_draws h width w). congruence.
Qed.

Lemma run_published evs : ∀ w x, x ∈ published w → x ∈ published (run evs w).
Proof.
  induction evs as [|ev evs IH]; intros w x Hin; [done|].
  rewrite run_cons. by apply IH, step_published.
Qed.

(** C7, as the code has it.  A published dictionary may still gain keys:
    drawing reads [total_time[lineno]] and [evals[lineno]] for every
    visible line, and such a read of a [defaultdict] stores the default
    under a missing key.  Here the dictionary of times published with the
    entry of line 1 alone holds an entry for line 2 once the dashboard is
    drawn. *)
Lemma published_dictionary_changed_by_draw :
  (∃ interval, last (published published_once) = Some (interval, 2%nat, 3%nat)) ∧
  items (heap published_once 2) !! 2 = None ∧
  items (heap (step published_once (Draw 24 80)) 2) !! 2 = Some (VFloat 0) ∧
  heap (step published_once (Draw 24 80)) 2 ≠ heap published_once 2.
Proof.
  assert (items (heap published_once 2) !! 2 = None) as Hbefore
    by (vm_compute; reflexivity).
  assert (items (heap (step published_once (Draw 24 80)) 2) !! 2
          = Some (VFloat 0)) as Hafter by (vm_compute; reflexivity).
  split; [eexists; vm_compute; reflexivity|].
  split; [done|]. split; [done|].
  intros Heq. rewrite Heq, Hbefore in Hafter. by inversion Hafter.
Qed.

(** C7, amended.  Once published, the two dictionaries of a snapshot keep
    every entry they have, and any entry they gain holds the default value
    zero, so that every line maps to the same time and the same count ever
    after, whatever the process does next. *)
Theorem published_values_stable
    (w : world) (evs : list event) (interval : num) (total_time evals : addr) :
  store_ok w →
  (interval, total_time, evals) ∈ published w →
  (interval, total_time, evals) ∈ published (run evs w) ∧
  (items (heap w total_time) ⊆ items (heap (run evs w) total_time) ∧
   ∀ l, dd_peek (heap (run evs w) total_time) l = dd_peek (heap w total_time) l) ∧
  (items (heap w evals) ⊆ items (heap (run evs w) evals) ∧
   ∀ l, dd_peek (heap (run evs w) evals) l = dd_peek (heap w evals) l).
Proof.
  intros Hok Hin.
  destruct (ok_published w Hok _ _ _ Hin) as [Ha Hb].
  split; [by apply run_published|].
  split.
  - destruct (run_frozen evs w total_time Hok Ha) as (_ & ? & ?). done.
  - destruct (run_frozen evs w evals Hok Hb) as (_ & ? & ?). done.
Qed.

Lemma published_values_stable_witness :
  (VFloat (seconds 2 - seconds 0), 2%nat, 3%nat)
    ∈ published (run [Draw 24 80; LinePre 2] published_once) ∧
  (items (heap published_once 2)
     ⊆ items (heap (run [Draw 24 80; LinePre 2] published_once) 2) ∧
   ∀ l, dd_peek (heap (run [Draw 24 80; LinePre 2] published_once) 2) l
        = dd_peek (heap published_once 2) l) ∧
  (items (heap published_once 3)
     ⊆ items (heap (run [Draw 24 80; LinePre 2] published_once) 3) ∧
   ∀ l, dd_peek (heap (run [Draw 24 80; LinePre 2] published_once) 3) l
        = dd_peek (heap published_once 3) l).
Proof.
  apply (published_values_stable published_once [Draw 24 80; LinePre 2]
           (VFloat (seconds 2 - seconds 0)) 2 3).
  - apply store_ok_run, store_ok_boot.
  - change (published published_once)
      with [(VFloat (seconds 2 - seconds 0), 2%nat, 3%nat)].
    apply list_elem_of_here.
Defined.

(** ** The offset of the dashboard *)

Lemma scroll_step_ret : scroll_step (mret tt).
Proof.
  intros [? ? ? ? ? [? ? ? ? s ?] ? ? b]. by exists s, b.
Qed.

Lemma scroll_step_update (f : Reporter → Z) :
  scroll_step (update_reporter (λ r, set_scroll (f r) r)).
Proof.
  intros [? ? ? ? ? r ? ? b]. by exists (f r), b.
Qed.

Lemma scroll_step_interrupt : scroll_step (update (set_interrupted true)).
Proof.
  intros [? ? ? ? ? [? ? ? ? s ?] ? ? ?]. by exists s, true.
Qed.

Lemma scroll_step_if (b : bool) m1 m2 :
  scroll_step m1 → scroll_step m2 → scroll_step (if b then m1 else m2).
Proof. by destruct b. Qed.

Lemma scroll_step_bind m1 m2 :
  scroll_step m1 → scroll_step m2 → scroll_step (m1 ≫= λ _, m2).
Proof.
  intros H1 H2 w. destruct (H1 w) as (s1 & b1 & Heq1).
  erewrite bind_done by exact Heq1.
  destruct (H2 (set_interrupted b1
                  (set_reporter (set_scroll s1 (reporter w)) w)))
    as (s2 & b2 & Heq2).
  exists s2, b2. by rewrite Heq2.
Qed.

Lemma input_key_eq c : scroll_step (input_key c).
Proof.
  unfold input_key.
  repeat (apply scroll_step_bind;
          [apply scroll_step_if;
           [apply scroll_step_update|apply scroll_step_ret]|]).
  apply scroll_step_if; [apply scroll_step_interrupt|apply scroll_step_ret].
Qed.

(** After a key, the offset is at most [len(lines) - height + 2], and it
    is at least zero when that bound is. *)
Lemma input_turn_clamps c w :
  let upper := Z.of_nat (length (lines (reporter w))) - height (reporter w) + 2 in
  fst (input_turn c w) = Done tt ∧
  scroll (reporter (snd (input_turn c w))) ≤ upper ∧
  (0 ≤ upper → 0 ≤ scroll (reporter (snd (input_turn c w)))).
Proof.
  destruct (input_key_eq c w) as (s & b & Heq).
  unfold input_turn. erewrite bind_done by exact Heq.
  unfold clamp_scroll, invalidate, update_reporter, update, mbind, M_bind.
  simpl_world. cbn.
  repeat match goal with
         | |- context [if ?x <? ?y then _ else _] =>
             destruct (Z.ltb_spec x y); simpl_world
         end; (split; [done|lia]).
Qed.

(** When the file is shorter than the window by more than two lines, any
    key leaves the offset at [len(lines) - height + 2], which is negative:
    the test [self.scroll < 0] comes first, and the test against the bound
    that follows it undoes what it did. *)
Lemma input_turn_short_file c w :
  Z.of_nat (length (lines (reporter w))) - height (reporter w) + 2 < 0 →
  scroll (reporter (snd (input_turn c w)))
  = Z.of_nat (length (lines (reporter w))) - height (reporter w) + 2.
Proof.
  intros Hshort. destruct (input_key_eq c w) as (s & b & Heq).
  unfold input_turn. erewrite bind_done by exact Heq.
  unfold clamp_scroll, invalidate, update_reporter, update, mbind, M_bind.
  simpl_world. cbn.
  repeat match goal with
         | |- context [if ?x <? ?y then _ else _] =>
             destruct (Z.ltb_spec x y); simpl_world
         end; lia.
Qed.

(** C6 fails on the code: in a file of three lines, with the initial
    height of ten lines, a key leaves the offset at [3 - 10 + 2], which is
    negative, although [input_thread] tests [self.scroll < 0] to set it
    to zero. *)
Lemma scroll_negative_on_short_file :
  scroll (reporter (step (boot seconds ["a"; "b"; "c"] [[]; []; []])
                         (Key (ord "j")))) = -5.
Proof. vm_compute. reflexivity. Qed.

(** ** Drawing a visible line *)

#[export] Instance drawn_preorder : PreOrder drawn.
Proof.
  split.
  - intros w. split; [done|]. split; [done|]. exists []. by rewrite app_nil_r.
  - intros w1 w2 w3 (Hr1 & Hg1 & m1 & Hs1) (Hr2 & Hg2 & m2 & Hs2).
    split; [congruence|]. split.
    + intros a. etrans; [apply Hg1|apply Hg2].
    + exists (m1 ++ m2). by rewrite Hs2, Hs1, app_assoc.
Qed.

Lemma truediv_eq x y w :
  to_float y ≠ 0%Qc → truediv x y w = (Done (to_float x / to_float y)%Qc, w).
Proof. intros Hy%Qc_eqb_ne. unfold truediv. by rewrite Hy. Qed.


Lemma enumerate_lookup {A} (xs : list A) : ∀ start n x,
  (n, x) ∈ enumerate xs start ↔ start ≤ n ∧ xs !! Z.to_nat (n - start) = Some x.
Proof.
  induction xs as [|y xs IH]; intros start n x; cbn [enumerate].
  - rewrite elem_of_nil. split; [done|]. by intros [_ ?].
  - rewrite elem_of_cons, IH. split.
    + intros [[= -> ->]|[Hle Hx]].
      * split; [lia|]. by replace (start - start) with 0 by lia.
      * split; [lia|].
        replace (Z.to_nat (n - start)) with (S (Z.to_nat (n - (start + 1))))
          by lia. done.
    + intros [Hle Hx]. destruct (decide (n = start)) as [->|Hne].
      * left. replace (start - start) with 0 in Hx by lia.
        change (Z.to_nat 0) with 0%nat in Hx. cbn in Hx. congruence.
      * right. split; [lia|].
        replace (Z.to_nat (n - start)) with (S (Z.to_nat (n - (start + 1))))
          in Hx by lia. done.
Qed.







(** * Further properties of [annotate] *)

(** X1.  A statement of a class [annotate] does not know (an annotated
    assignment, [raise], [assert], [global], [nonlocal], [pass], and the
    [async] forms of [def], [for] and [with]) stays where it is, exactly as
    it was, with whatever it contains, and its class is printed once after
    [WARNING], between what is printed for the statements before it and
    for those after it. *)
Theorem annotate_leaves_unrecognised
    (fuel : nat) (xs ys : list stmt) (s : stmt) :
  (depth (xs ++ s :: ys) < fuel)%nat →
  recognised s = false →
  ∃ xs' ys' printed_xs printed_ys,
    annotate fuel xs = Done (xs', printed_xs) ∧
    annotate fuel ys = Done (ys', printed_ys) ∧
    annotate fuel (xs ++ s :: ys)
    = Done (xs' ++ s :: ys', printed_xs ++ type_of s :: printed_ys).
Proof.
  intros Hd Hs. pose proof Hd as Hd'.
  rewrite depth_app, depth_cons in Hd'.
  exists (instrument xs), (instrument ys), (warnings xs), (warnings ys).
  rewrite !annotate_returns by (done || lia).
  split; [done|]. split; [done|].
  rewrite instrument_app, warnings_app, instrument_cons.
  unfold warnings at 2. cbn [flat_map]. fold (warnings ys).
  assert (instrument_stmt s = [s] ∧ warnings_stmt s = [type_of s]) as [-> ->].
  { destruct s as [c ? ?|c ? ? ? ?|? ? ? ? ?|c ? ? ?]; cbn in *.
    - apply orb_false_iff in Hs as [-> ->]. done.
    - by rewrite Hs.
    - done.
    - by rewrite Hs. }
  done.
Qed.

Lemma annotate_leaves_unrecognised_witness :
  ∃ xs' ys' printed_xs printed_ys,
    annotate 2 [Simple Assign 1 "x = 1"] = Done (xs', printed_xs) ∧
    annotate 2 [Simple Pass 4 "pass"] = Done (ys', printed_ys) ∧
    annotate 2 ([Simple Assign 1 "x = 1"]
                  ++ Scope AsyncFunctionDef 2 "g()" [Simple Return 3 "return 0"]
                  :: [Simple Pass 4 "pass"])
    = Done (xs' ++ Scope AsyncFunctionDef 2 "g()" [Simple Return 3 "return 0"]
                :: ys',
            printed_xs
              ++ type_of (Scope AsyncFunctionDef 2 "g()"
                                [Simple Return 3 "return 0"])
              :: printed_ys).
Proof.
  apply (annotate_leaves_unrecognised 2 [Simple Assign 1 "x = 1"]
           [Simple Pass 4 "pass"]
           (Scope AsyncFunctionDef 2 "g()" [Simple Return 3 "return 0"])).
  - cbn. lia.
  - reflexivity.
Defined.

Lemma instrument_length body :
  length (instrument body)
  = (length body + sum_list (hooks_inserted <$> body))%nat.
Proof.
  induction body as [|s body IH]; [done|].
  rewrite instrument_cons, length_app, IH.
  cbn [length fmap list_fmap sum_list sum_list_with]. unfold id.
  assert (length (instrument_stmt s) = S (hooks_inserted s)) as ->; [|lia].
  destruct s as [c ? ?|c ? ? ? ?|? ? ? ? ?|c ? ? ?]; cbn;
    repeat case_match; done.
Qed.

(** X2.  The block [annotate] returns is longer than the one it was given
    by two for each measurable statement and one for each control transfer
    of that block; nothing is added for any other statement. *)
Theorem annotate_length (fuel : nat) (body : list stmt) :
  (depth body < fuel)%nat →
  ∃ out printed,
    annotate fuel body = Done (out, printed) ∧
    length out = (length body + sum_list (hooks_inserted <$> body))%nat.
Proof.
  intros Hd. exists (instrument body), (warnings body).
  split; [by apply annotate_returns|apply instrument_length].
Qed.

Lemma annotate_length_witness :
  ∃ out printed,
    annotate 4 sample = Done (out, printed) ∧
    length out = (length sample + sum_list (hooks_inserted <$> sample))%nat.
Proof. apply (annotate_length 4 sample). cbn. lia. Defined.

(** X3.  [annotate] is not to be run twice: the hooks are expression
    statements of line 1, so a second run over a block that has its hooks
    puts each hook between a begin hook and an end hook for line 1. *)
Theorem annotate_twice_wraps_hooks
    (fuel : nat) (c : simple_class) (n : Z) (src : string) :
  (0 < fuel)%nat →
  is_measurable c = true →
  ∃ once,
    fst <$> annotate fuel [Simple c n src] = Done once ∧
    fst <$> annotate fuel once
    = Done [ line_pre_call 1; line_pre_call n; line_post_call 1;
             line_pre_call n; Simple c n src; line_post_call n;
             line_pre_call 1; line_post_call n; line_post_call 1 ].
Proof.
  intros Hfuel Hc. exists (instrument [Simple c n src]).
  rewrite annotate_returns by (cbn; lia). split; [done|].
  assert (instrument [Simple c n src]
          = [line_pre_call n; Simple c n src; line_post_call n]) as ->
    by (cbn; by rewrite Hc).
  rewrite annotate_returns by (cbn; lia). cbn. by rewrite Hc.
Qed.

Lemma annotate_twice_wraps_hooks_witness :
  ∃ once,
    fst <$> annotate 1 [Simple Assign 7 "x = 1"] = Done once ∧
    fst <$> annotate 1 once
    = Done [ line_pre_call 1; line_pre_call 7; line_post_call 1;
             line_pre_call 7; Simple Assign 7 "x = 1"; line_post_call 7;
             line_pre_call 1; line_post_call 7; line_post_call 1 ].
Proof.
  apply (annotate_twice_wraps_hooks 1 Assign 7 "x = 1"); [lia|reflexivity].
Defined.

(** * Further properties of the accumulator *)

(** X4.  [exit_pre(line)] returns, adds one to the count of evaluations of
    the line, and does nothing else: the counts of the other lines, the
    dictionary of times, the start times, the clock and what is published
    stay as they were. *)
Theorem exit_pre_counts_only (w : world) (l : Z) :
  store_ok w →
  let evals := line_evals (lineprof w) in
  let w' := snd (exit_pre l w) in
  fst (exit_pre l w) = Done tt ∧
  dd_peek (heap w' evals) l = num_add (dd_peek (heap w evals) l) (VInt 1) ∧
  (∀ l', l' ≠ l → dd_peek (heap w' evals) l' = dd_peek (heap w evals) l') ∧
  heap w' (line_time (lineprof w)) = heap w (line_time (lineprof w)) ∧
  lineprof w' = lineprof w ∧
  ticks w' = ticks w ∧
  published w' = published w ∧
  reporter w' = reporter w.
Proof.
  intros Hok evals w'. subst w'. rewrite exit_pre_eq. cbn [fst snd].
  simpl_world. split; [done|].
  split; [apply dd_incr_peek|].
  split; [intros l' Hne; by apply dd_incr_peek_ne|].
  split; [|done]. apply dd_incr_other, Hok.
Qed.

Lemma exit_pre_counts_only_witness :
  let evals := line_evals (lineprof begun) in
  let w' := snd (exit_pre 7 begun) in
  fst (exit_pre 7 begun) = Done tt ∧
  dd_peek (heap w' evals) 7 = num_add (dd_peek (heap begun evals) 7) (VInt 1) ∧
  (∀ l', l' ≠ 7 → dd_peek (heap w' evals) l' = dd_peek (heap begun evals) l') ∧
  heap w' (line_time (lineprof begun)) = heap begun (line_time (lineprof begun)) ∧
  lineprof w' = lineprof begun ∧
  ticks w' = ticks begun ∧
  published w' = published begun ∧
  reporter w' = reporter begun.
Proof. apply (exit_pre_counts_only begun 7). exact store_ok_begun. Defined.

(** X5.  When [line_post(line)] raises [KeyError] it has already read the
    clock and read [self.line_time[lineno]]: the line now has an entry in
    the dictionary of times (zero if it had none), every line still maps
    to the same time, and the counts, the start times and what is
    published are untouched. *)
Theorem line_post_failure_state (w : world) (l : Z) :
  store_ok w →
  begin_time (lineprof w) !! l = None →
  let total_time := line_time (lineprof w) in
  let w' := snd (line_post l w) in
  fst (line_post l w) = Raised (KeyError l) ∧
  items (heap w' total_time) !! l = Some (dd_peek (heap w total_time) l) ∧
  (∀ l', dd_peek (heap w' total_time) l' = dd_peek (heap w total_time) l') ∧
  heap w' (line_evals (lineprof w)) = heap w (line_evals (lineprof w)) ∧
  ticks w' = S (ticks w) ∧
  lineprof w' = lineprof w ∧
  published w' = published w ∧
  reporter w' = reporter w.
Proof.
  intros Hok Hl total_time w'. subst w'. rewrite line_post_eq, Hl.
  cbn [fst snd]. simpl_world. split; [done|]. split.
  { subst total_time. unfold dd_touch, dd_peek.
    destruct (items (heap w _) !! l) as [v|] eqn:Hv; cbn; [done|].
    rewrite fn_lookup_insert. cbn. by rewrite lookup_insert_eq. }
  split; [intros l'; apply dd_touch_peek|].
  split; [|done]. apply dd_touch_other. intros Heq. by apply Hok.
Qed.

Lemma line_post_failure_state_witness :
  let w := boot seconds [] [] in
  let total_time := line_time (lineprof w) in
  let w' := snd (line_post 3 w) in
  fst (line_post 3 w) = Raised (KeyError 3) ∧
  items (heap w' total_time) !! 3 = Some (dd_peek (heap w total_time) 3) ∧
  (∀ l', dd_peek (heap w' total_time) l' = dd_peek (heap w total_time) l') ∧
  heap w' (line_evals (lineprof w)) = heap w (line_evals (lineprof w)) ∧
  ticks w' = S (ticks w) ∧
  lineprof w' = lineprof w ∧
  published w' = published w ∧
  reporter w' = reporter w.
Proof.
  apply (line_post_failure_state (boot seconds [] []) 3).
  - apply store_ok_boot.
  - reflexivity.
Defined.

Lemma Qc_le_add_nonneg (x y : Qc) : (0 ≤ y → x ≤ x + y)%Qc.
Proof.
  intros Hy. rewrite <-(Qcplus_0_r x) at 1.
  apply Qcplus_le_compat; [apply Qcle_refl|done].
Qed.

Lemma snoc_ne {A} (l : list A) (x : A) : l ++ [x] ≠ l.
Proof.
  intros Heq. apply (f_equal length) in Heq.
  rewrite length_app in Heq. cbn in Heq. lia.
Qed.

Lemma dd_incr_peek_le a k x h l :
  (0 ≤ to_float x)%Qc →
  (to_float (dd_peek (h a) l) ≤ to_float (dd_peek (dd_incr a k x h a) l))%Qc.
Proof.
  intros Hx. destruct (decide (l = k)) as [->|Hne].
  - rewrite dd_incr_peek, to_float_add. by apply Qc_le_add_nonneg.
  - rewrite dd_incr_peek_ne by done. apply Qcle_refl.
Qed.

(** X6.  Within a window the accumulated values only grow: on a clock that
    never goes back, an event that publishes nothing leaves the
    accumulator with the same two dictionaries, and no line's cumulative
    time or count of evaluations is smaller after it than before. *)
Theorem window_values_never_decrease
    (clk : nat → Qc) (code_lines : list string)
    (spans : list (list (Z * string))) (evs : list event) (ev : event) :
  monotone clk →
  let w := run evs (boot clk code_lines spans) in
  let w' := step w ev in
  published w' = published w →
  line_time (lineprof w') = line_time (lineprof w) ∧
  line_evals (lineprof w') = line_evals (lineprof w) ∧
  ∀ l,
    (to_float (dd_peek (heap w (line_time (lineprof w))) l)
     ≤ to_float (dd_peek (heap w' (line_time (lineprof w))) l))%Qc ∧
    (to_float (dd_peek (heap w (line_evals (lineprof w))) l)
     ≤ to_float (dd_peek (heap w' (line_evals (lineprof w))) l))%Qc.
Proof.
  intros Hmono w w'.
  assert (store_ok w) as Hok by apply store_ok_run, store_ok_boot.
  assert (acc_ok w) as Hacc.
  { apply acc_ok_run; [|apply store_ok_boot|apply acc_ok_boot].
    by rewrite boot_booted. }
  assert (line_time (lineprof w) ≠ line_evals (lineprof w)) as Hne
    by apply Hok.
  subst w'. unfold step.
  destruct ev as [l|l|l| |c|h width]; cbn [handle].
  - rewrite line_pre_eq. simpl_world. intros _.
    repeat split; apply Qcle_refl.
  - rewrite exit_pre_eq. simpl_world. intros _.
    split; [done|]. split; [done|]. intros l'. split.
    + rewrite dd_incr_other by done. apply Qcle_refl.
    + apply dd_incr_peek_le, one_nonneg.
  - rewrite line_post_eq.
    destruct (begin_time (lineprof w) !! l) as [t0|] eqn:Hl.
    + cbn zeta. destruct (num_ltb _ _); cbn [snd].
      * intros Hpub. cbn in Hpub. by apply snoc_ne in Hpub.
      * intros _. unfold posted. simpl_world.
        split; [done|]. split; [done|]. intros l'. split.
        -- rewrite dd_incr_other by done.
           apply dd_incr_peek_le. cbn. apply Qc_nonneg_sub.
           by eapply ok_begin.
        -- etrans; [|apply dd_incr_peek_le, one_nonneg].
           rewrite dd_incr_other by (intros Heq; by apply Hne).
           apply Qcle_refl.
    + simpl_world. intros _. split; [done|]. split; [done|]. intros l'.
      rewrite !dd_touch_peek. split; apply Qcle_refl.
  - rewrite report_flushed. intros Hpub. exfalso.
    cbn in Hpub. revert Hpub. destruct w; cbn. apply snoc_ne.
  - destruct (input_turn_scrolls c w) as [? ? Hh ? Hl ? ? ? ? ? ?].
    intros _. rewrite Hh, Hl. repeat split; apply Qcle_refl.
  - destruct (draw_turn_draws h width w) as [? ? ? Hl ? ? ? ? ? ? ? Hg].
    intros _. rewrite Hl. split; [done|]. split; [done|]. intros l'.
    destruct (Hg (line_time (lineprof w))) as (_ & _ & ->).
    destruct (Hg (line_evals (lineprof w))) as (_ & _ & ->).
    split; apply Qcle_refl.
Qed.

Lemma window_values_never_decrease_witness :
  let w := run [LinePre 7] (boot seconds [] []) in
  let w' := step w (ExitPre 7) in
  line_time (lineprof w') = line_time (lineprof w) ∧
  line_evals (lineprof w') = line_evals (lineprof w) ∧
  ∀ l,
    (to_float (dd_peek (heap w (line_time (lineprof w))) l)
     ≤ to_float (dd_peek (heap w' (line_time (lineprof w))) l))%Qc ∧
    (to_float (dd_peek (heap w (line_evals (lineprof w))) l)
     ≤ to_float (dd_peek (heap w' (line_evals (lineprof w))) l))%Qc.
Proof.
  apply (window_values_never_decrease seconds [] [] [LinePre 7] (ExitPre 7)).
  - exact monotone_seconds.
  - reflexivity.
Defined.

Lemma intervals_ok_flushed i w :
  (Qc_of_Z 1 < to_float i)%Qc → intervals_ok w →
  intervals_ok (flushed (Some i) w).
Proof.
  intros Hi [Hpub Hdata]. split; cbn.
  - intros i' a b [Hin|Hin%list_elem_of_singleton]%elem_of_app.
    + by eapply Hpub.
    + by injection Hin as -> _ _.
  - by apply Qclt_le_weak.
Qed.

Lemma intervals_ok_names w w' :
  published w' = published w → data (reporter w') = data (reporter w) →
  intervals_ok w → intervals_ok w'.
Proof. unfold intervals_ok. by intros -> ->. Qed.

Lemma intervals_ok_step w ev :
  ev ≠ Flush → intervals_ok w → intervals_ok (step w ev).
Proof.
  intros Hev Hok. unfold step.
  destruct ev as [l|l|l| |c|h width]; cbn [handle]; [..|done| |].
  - rewrite line_pre_eq. by apply (intervals_ok_names w).
  - rewrite exit_pre_eq. by apply (intervals_ok_names w).
  - rewrite line_post_eq. destruct (begin_time _ !! l) as [t0|].
    + cbn zeta. destruct (num_ltb _ _) eqn:Hcmp; cbn [snd].
      * apply intervals_ok_flushed; [by apply Qc_ltb_lt in Hcmp|].
        by apply (intervals_ok_names w).
      * by apply (intervals_ok_names w).
    + by apply (intervals_ok_names w).
  - destruct (input_turn_scrolls c w). apply (intervals_ok_names w); congruence.
  - destruct (draw_turn_draws h width w).
    apply (intervals_ok_names w); congruence.
Qed.

Lemma intervals_ok_run evs : ∀ w,
  Flush ∉ evs → intervals_ok w → intervals_ok (run evs w).
Proof.
  induction evs as [|ev evs IH]; intros w Hnf Hok; [done|].
  rewrite run_cons. apply not_elem_of_cons in Hnf as [Hev Hnf].
  apply IH; [done|]. by apply intervals_ok_step.
Qed.

Lemma intervals_ok_boot clk code_lines spans :
  intervals_ok (boot clk code_lines spans).
Proof.
  rewrite boot_booted. split; cbn.
  - intros i a b Hin. by apply elem_of_nil in Hin.
  - apply Qcle_refl.
Qed.

(** X7.  As long as [report] is called by [line_post] only, as it is in
    the program, every published interval exceeds one second. *)
Theorem published_intervals_exceed_one
    (clk : nat → Qc) (code_lines : list string)
    (spans : list (list (Z * string))) (evs : list event)
    (i : num) (a b : addr) :
  Flush ∉ evs →
  (i, a, b) ∈ published (run evs (boot clk code_lines spans)) →
  (Qc_of_Z 1 < to_float i)%Qc.
Proof.
  intros Hnf Hin.
  destruct (intervals_ok_run evs (boot clk code_lines spans) Hnf
              (intervals_ok_boot clk code_lines spans)) as [Hpub _].
  by eapply Hpub.
Qed.

Lemma published_intervals_exceed_one_witness :
  (Qc_of_Z 1 < to_float (VFloat (seconds 2 - seconds 0)))%Qc.
Proof.
  apply (published_intervals_exceed_one seconds ["x = 1"; "y = 2"] [[]; []]
           [LinePre 1; LinePost 1] (VFloat (seconds 2 - seconds 0)) 2 3).
  - intros Hin. repeat (apply elem_of_cons in Hin as [Hin|Hin]; [done|]).
    by apply elem_of_nil in Hin.
  - change (published (run [LinePre 1; LinePost 1]
                         (boot seconds ["x = 1"; "y = 2"] [[]; []])))
      with [(VFloat (seconds 2 - seconds 0), 2%nat, 3%nat)].
    apply list_elem_of_here.
Defined.

Lemma published_names_fresh w x :
  store_ok w → x ∈ published_names w →
  x ≠ line_time (lineprof w) ∧ x ≠ line_evals (lineprof w).
Proof.
  intros Hok (y & Hx & Hy)%list_elem_of_bind.
  destruct y as [[i a] b]. destruct (ok_published w Hok i a b Hy) as [Ha Hb].
  cbn in Hx. apply elem_of_cons in Hx as [->|Hx]; [split; apply Ha|].
  apply list_elem_of_singleton in Hx as ->. split; apply Hb.
Qed.

Lemma published_names_flushed oi w :
  published_names (flushed oi w)
  = published_names w ++ [line_time (lineprof w); line_evals (lineprof w)].
Proof.
  unfold published_names. destruct oi; cbn; by rewrite bind_app.
Qed.

Lemma NoDup_names_flushed oi w :
  store_ok w → NoDup (published_names w) →
  NoDup (published_names (flushed oi w)).
Proof.
  intros Hok Hnd. rewrite published_names_flushed.
  apply NoDup_app. split; [done|]. split.
  - intros x Hx Hin. destruct (published_names_fresh w x Hok Hx) as [? ?].
    apply elem_of_cons in Hin as [->|Hin]; [done|].
    by apply list_elem_of_singleton in Hin as ->.
  - apply NoDup_cons. split; [|apply NoDup_singleton].
    intros Hin%list_elem_of_singleton. by apply Hok.
Qed.

Lemma NoDup_names_step w ev :
  store_ok w → NoDup (published_names w) →
  NoDup (published_names (step w ev)).
Proof.
  intros Hok Hnd. unfold step.
  destruct ev as [l|l|l| |c|h width]; cbn [handle].
  - by rewrite line_pre_eq.
  - by rewrite exit_pre_eq.
  - rewrite line_post_eq. destruct (begin_time _ !! l) as [t0|]; [|done].
    cbn zeta. destruct (num_ltb _ _); cbn [snd]; [|done].
    apply NoDup_names_flushed; [by apply store_ok_posted|done].
  - rewrite report_flushed. by apply NoDup_names_flushed.
  - destruct (input_turn_scrolls c w) as [? ? ? ? ? ? Hp ? ? ? ?].
    unfold published_names. by rewrite Hp.
  - destruct (draw_turn_draws h width w) as [? ? ? ? Hp ? ? ? ? ? ? ?].
    unfold published_names. by rewrite Hp.
Qed.

Lemma NoDup_names_run evs : ∀ w,
  store_ok w → NoDup (published_names w) →
  NoDup (published_names (run evs w)).
Proof.
  induction evs as [|ev evs IH]; intros w Hok Hnd; [done|].
  rewrite run_cons. apply IH; [by apply store_ok_step|].
  by apply NoDup_names_step.
Qed.

(** X9.  The windows do not share state: whatever happens in the process,
    no dictionary is published twice, the dictionary of times of a
    snapshot is never its dictionary of counts, and the two dictionaries
    the accumulator is filling are none of the published ones. *)
Theorem published_dictionaries_distinct
    (clk : nat → Qc) (code_lines : list string)
    (spans : list (list (Z * string))) (evs : list event) :
  NoDup (published_names (run evs (boot clk code_lines spans))) ∧
  (line_time (lineprof (run evs (boot clk code_lines spans)))
     ∉ published_names (run evs (boot clk code_lines spans))) ∧
  (line_evals (lineprof (run evs (boot clk code_lines spans)))
     ∉ published_names (run evs (boot clk code_lines spans))).
Proof.
  assert (store_ok (run evs (boot clk code_lines spans))) as Hok
    by apply store_ok_run, store_ok_boot.
  split.
  - apply NoDup_names_run; [apply store_ok_boot|].
    rewrite boot_booted. apply NoDup_nil_2.
  - split; intros Hin;
      destruct (published_names_fresh _ _ Hok Hin) as [? ?]; done.
Qed.

(** * Further properties of the input loop *)

(** Decide the tests on the key once the key is known, or known to
    differ. *)
Ltac decide_keys :=
  change (ord "j") with 106 in *; change (ord "k") with 107 in *;
  change (ord "d") with 100 in *; change (ord "u") with 117 in *;
  change (ord " ") with 32 in *; change (ord "q") with 113 in *;
  repeat match goal with
         | |- context [bool_decide (?a = ?b)] =>
             first [ rewrite (bool_decide_eq_true_2 (a = b)) by done
                   | rewrite (bool_decide_eq_false_2 (a = b)) by done ]
         end.

(** Run a turn of the input loop whose tests on the key are decided. *)
Ltac run_input_turn :=
  unfold clamp_scroll, invalidate,
         update_reporter, update, mbind, M_bind, mret, M_ret;
  simpl_world; cbn [orb];
  repeat (case_match; simpl_world);
  repeat match goal with
         | H : (_ <? _) = true |- _ => apply Z.ltb_lt in H
         | H : (_ <? _) = false |- _ => apply Z.ltb_ge in H
         end;
  rewrite ?orb_false_r, ?orb_true_r, ?Z.add_0_r;
  repeat split; first [done | lia].

(** A turn of the input loop in one formula: the key moves the offset,
    the two tests follow, the dirty flag is set, and [q] marks the process
    as interrupted. *)
Lemma input_turn_scroll c w :
  fst (input_turn c w) = Done tt ∧
  scroll (reporter (snd (input_turn c w)))
  = clamp (scroll_bound (reporter w))
          (scroll (reporter w) + key_move c (height (reporter w))) ∧
  dirty (reporter (snd (input_turn c w))) = true ∧
  interrupted (snd (input_turn c w))
  = interrupted w || bool_decide (c = ord "q").
Proof.
  destruct w as [? ? ? ? ? [ls ? ? ? s h] ? ? intr].
  unfold scroll_bound, clamp, input_turn, input_key, key_move. simpl_world.
  destruct (decide (c = ord "j")) as [->|Hj]; [decide_keys; run_input_turn|].
  destruct (decide (c = ord "k")) as [->|Hk]; [decide_keys; run_input_turn|].
  destruct (decide (c = ord "d")) as [->|Hd]; [decide_keys; run_input_turn|].
  destruct (decide (c = ord "u")) as [->|Hu]; [decide_keys; run_input_turn|].
  destruct (decide (c = ord " ")) as [->|Hs]; [decide_keys; run_input_turn|].
  destruct (decide (c = ord "q")) as [->|Hq]; decide_keys; run_input_turn.
Qed.

Lemma clamp_range bound x : 0 ≤ bound → 0 ≤ clamp bound x ≤ bound.
Proof.
  intros Hb. unfold clamp. cbn zeta.
  repeat case_match;
    repeat match goal with
           | H : (_ <? _) = true |- _ => apply Z.ltb_lt in H
           | H : (_ <? _) = false |- _ => apply Z.ltb_ge in H
           end; lia.
Qed.

Lemma clamp_below bound x : bound < 0 → clamp bound x = bound.
Proof.
  intros Hb. unfold clamp. cbn zeta.
  repeat case_match;
    repeat match goal with
           | H : (_ <? _) = true |- _ => apply Z.ltb_lt in H
           | H : (_ <? _) = false |- _ => apply Z.ltb_ge in H
           end; lia.
Qed.

Lemma clamp_id bound x : 0 ≤ x ≤ bound → clamp bound x = x.
Proof.
  intros Hx. unfold clamp. cbn zeta.
  repeat case_match;
    repeat match goal with
           | H : (_ <? _) = true |- _ => apply Z.ltb_lt in H
           | H : (_ <? _) = false |- _ => apply Z.ltb_ge in H
           end; lia.
Qed.

Lemma scroll_bound_step_key w c :
  scroll_bound (reporter (step w (Key c))) = scroll_bound (reporter w).
Proof.
  unfold step, scroll_bound. cbn [handle].
  destruct (input_turn_scrolls c w) as [? ? ? ? ? ? ? -> ? ? ->]. done.
Qed.

Lemma scroll_bound_run_keys cs : ∀ w,
  scroll_bound (reporter (run (Key <$> cs) w)) = scroll_bound (reporter w).
Proof.
  induction cs as [|c cs IH]; intros w; [done|].
  cbn [fmap list_fmap]. by rewrite run_cons, IH, scroll_bound_step_key.
Qed.

Lemma run_keys_snoc cs c w :
  run (Key <$> (cs ++ [c])) w = step (run (Key <$> cs) w) (Key c).
Proof.
  rewrite fmap_app. change (Key <$> [c]) with [Key c]. apply run_snoc.
Qed.

(** X10.  When the file is not shorter than the window by more than two
    lines, the offset lies between zero and [len(lines) - height + 2]
    after any keys, whatever it was before them. *)
Theorem keys_keep_offset_in_bounds (w : world) (cs : list Z) (c : Z) :
  0 ≤ Z.of_nat (length (lines (reporter w))) - height (reporter w) + 2 →
  0 ≤ scroll (reporter (run (Key <$> (cs ++ [c])) w))
    ≤ Z.of_nat (length (lines (reporter w))) - height (reporter w) + 2.
Proof.
  intros Hb. fold (scroll_bound (reporter w)) in *.
  rewrite run_keys_snoc. unfold step. cbn [handle].
  destruct (input_turn_scroll c (run (Key <$> cs) w)) as (_ & -> & _).
  rewrite scroll_bound_run_keys. by apply clamp_range.
Qed.

Lemma keys_keep_offset_in_bounds_witness :
  0 ≤ scroll (reporter (run (Key <$> ([ord "d"; ord " "] ++ [ord "k"]))
                            (boot seconds (replicate 30 "pass") [])))
    ≤ Z.of_nat (length (lines (reporter (boot seconds (replicate 30 "pass") []))))
      - height (reporter (boot seconds (replicate 30 "pass") [])) + 2.
Proof.
  apply (keys_keep_offset_in_bounds
           (boot seconds (replicate 30 "pass") []) [ord "d"; ord " "] (ord "k")).
  vm_compute. discriminate.
Defined.

(** X11.  When the file is shorter than the window by more than two
    lines, the offset is the negative number
    [len(lines) - height + 2] after any keys. *)
Theorem keys_on_short_file (w : world) (cs : list Z) (c : Z) :
  Z.of_nat (length (lines (reporter w))) - height (reporter w) + 2 < 0 →
  scroll (reporter (run (Key <$> (cs ++ [c])) w))
  = Z.of_nat (length (lines (reporter w))) - height (reporter w) + 2.
Proof.
  intros Hb. fold (scroll_bound (reporter w)) in *.
  rewrite run_keys_snoc. unfold step. cbn [handle].
  destruct (input_turn_scroll c (run (Key <$> cs) w)) as (_ & -> & _).
  rewrite scroll_bound_run_keys. by apply clamp_below.
Qed.

Lemma keys_on_short_file_witness :
  scroll (reporter (run (Key <$> ([ord "j"] ++ [ord "k"]))
                        (boot seconds ["a"; "b"; "c"] [[]; []; []])))
  = Z.of_nat (length (lines (reporter (boot seconds ["a"; "b"; "c"]
                                            [[]; []; []]))))
    - height (reporter (boot seconds ["a"; "b"; "c"] [[]; []; []])) + 2.
Proof.
  apply (keys_on_short_file (boot seconds ["a"; "b"; "c"] [[]; []; []])
           [ord "j"] (ord "k")).
  vm_compute. reflexivity.
Defined.

(** X12.  Moving down and back up returns to the same offset: [j] then
    [k], and [d] then [u], leave the offset where it was, provided the
    offset and the place moved to are between zero and the bound. *)
Theorem down_then_up_round_trip (w : world) :
  0 ≤ scroll (reporter w) →
  (scroll (reporter w) + 1 ≤ scroll_bound (reporter w) →
   scroll (reporter (run [Key (ord "j"); Key (ord "k")] w)) = scroll (reporter w))
  ∧
  (0 ≤ height (reporter w) `div` 2 →
   scroll (reporter w) + height (reporter w) `div` 2 ≤ scroll_bound (reporter w) →
   scroll (reporter (run [Key (ord "d"); Key (ord "u")] w)) = scroll (reporter w)).
Proof.
  intros Hs. split.
  - intros Hb. unfold run. cbn [foldl]. unfold step at 1. cbn [handle].
    destruct (input_turn_scroll (ord "k") (step w (Key (ord "j"))))
      as (_ & -> & _).
    rewrite scroll_bound_step_key.
    assert (height (reporter (step w (Key (ord "j")))) = height (reporter w))
      as -> by apply (input_turn_scrolls (ord "j") w).
    unfold step. cbn [handle].
    destruct (input_turn_scroll (ord "j") w) as (_ & -> & _).
    change (key_move (ord "j") (height (reporter w))) with 1.
    change (key_move (ord "k") (height (reporter w))) with (-1).
    rewrite (clamp_id _ (scroll (reporter w) + 1)) by lia.
    rewrite clamp_id by lia. lia.
  - intros Hh Hb. unfold run. cbn [foldl]. unfold step at 1. cbn [handle].
    destruct (input_turn_scroll (ord "u") (step w (Key (ord "d"))))
      as (_ & -> & _).
    rewrite scroll_bound_step_key.
    assert (height (reporter (step w (Key (ord "d")))) = height (reporter w))
      as -> by apply (input_turn_scrolls (ord "d") w).
    unfold step. cbn [handle].
    destruct (input_turn_scroll (ord "d") w) as (_ & -> & _).
    change (key_move (ord "d") (height (reporter w)))
      with (height (reporter w) `div` 2).
    change (key_move (ord "u") (height (reporter w)))
      with (- (height (reporter w) `div` 2)).
    rewrite (clamp_id _ (scroll (reporter w) + _)) by lia.
    rewrite clamp_id by lia. lia.
Qed.

Lemma down_then_up_round_trip_witness :
  (scroll (reporter (boot seconds (replicate 30 "pass") [])) + 1
   ≤ scroll_bound (reporter (boot seconds (replicate 30 "pass") [])) →
   scroll (reporter (run [Key (ord "j"); Key (ord "k")]
                         (boot seconds (replicate 30 "pass") [])))
   = scroll (reporter (boot seconds (replicate 30 "pass") [])))
  ∧
  (0 ≤ height (reporter (boot seconds (replicate 30 "pass") [])) `div` 2 →
   scroll (reporter (boot seconds (replicate 30 "pass") []))
   + height (reporter (boot seconds (replicate 30 "pass") [])) `div` 2
   ≤ scroll_bound (reporter (boot seconds (replicate 30 "pass") [])) →
   scroll (reporter (run [Key (ord "d"); Key (ord "u")]
                         (boot seconds (replicate 30 "pass") [])))
   = scroll (reporter (boot seconds (replicate 30 "pass") []))).
Proof.
  apply (down_then_up_round_trip (boot seconds (replicate 30 "pass") [])).
  vm_compute. discriminate.
Defined.

(** X13.  A key that is none of [j], [k], [d], [u] and the space bar
    leaves an offset between zero and the bound where it is; it still
    sets the dirty flag, and it marks the process as interrupted exactly
    when it is [q]. *)
Theorem other_key_keeps_offset (w : world) (c : Z) :
  c ≠ ord "j" → c ≠ ord "k" → c ≠ ord "d" → c ≠ ord "u" → c ≠ ord " " →
  0 ≤ scroll (reporter w) ≤ scroll_bound (reporter w) →
  fst (input_turn c w) = Done tt ∧
  scroll (reporter (snd (input_turn c w))) = scroll (reporter w) ∧
  dirty (reporter (snd (input_turn c w))) = true ∧
  interrupted (snd (input_turn c w))
  = interrupted w || bool_decide (c = ord "q").
Proof.
  intros Hj Hk Hd Hu Hs Hb.
  destruct (input_turn_scroll c w) as (Hdone & Hscroll & Hdirty & Hint).
  split; [done|]. split; [|done].
  rewrite Hscroll. unfold key_move.
  rewrite !bool_decide_eq_false_2 by done.
  rewrite Z.add_0_r. by apply clamp_id.
Qed.

Lemma other_key_keeps_offset_witness :
  fst (input_turn (ord "q") (boot seconds (replicate 30 "pass") [])) = Done tt ∧
  scroll (reporter (snd (input_turn (ord "q")
                           (boot seconds (replicate 30 "pass") []))))
  = scroll (reporter (boot seconds (replicate 30 "pass") [])) ∧
  dirty (reporter (snd (input_turn (ord "q")
                          (boot seconds (replicate 30 "pass") [])))) = true ∧
  interrupted (snd (input_turn (ord "q")
                      (boot seconds (replicate 30 "pass") [])))
  = interrupted (boot seconds (replicate 30 "pass") [])
    || bool_decide (ord "q" = ord "q").
Proof.
  apply (other_key_keeps_offset (boot seconds (replicate 30 "pass") [])
           (ord "q")); try discriminate.
  split; vm_compute; discriminate.
Defined.

(** * Further properties of the drawing loop *)

#[export] Instance same_view_preorder : PreOrder same_view.
Proof.
  split.
  - intros w. by split.
  - intros w1 w2 w3 [Hr1 Hg1] [Hr2 Hg2]. split; [congruence|].
    intros a. etrans; [apply Hg1|apply Hg2].
Qed.

Lemma same_view_render_line h w w' interval a b item :
  same_view w w' →
  render_line h w' interval a b item = render_line h w interval a b item.
Proof.
  intros [Hr Hg]. unfold render_line, visible, line_calls, line_part, freq_call.
  rewrite Hr. destruct (Hg a) as (_ & _ & Ha). destruct (Hg b) as (_ & _ & Hb).
  by rewrite Ha, Hb.
Qed.

Lemma for_each_addstr_exact y kws : ∀ w,
  ∃ w', for_each kws (λ '(idx, keyword),
                        addstr y (15 + idx) keyword (Some 1)) w
        = (Done tt, w') ∧
        reporter w' = reporter w ∧ heap w' = heap w ∧
        screen w' = screen w ++ (keyword_call y <$> kws).
Proof.
  induction kws as [|[idx kw] kws IH]; intros w.
  - exists w. by rewrite app_nil_r.
  - cbn [for_each]. destruct (IH (set_screen
        (screen w ++ [AddStr y (15 + idx) kw (Some 1)]) w))
      as (w' & Heq & Hr & Hh & Hs).
    exists w'. erewrite bind_done by reflexivity.
    split; [exact Heq|]. split; [done|]. split; [done|].
    rewrite Hs. simpl_world. by rewrite <-app_assoc.
Qed.

(** A turn of the loop over the lines, exactly. *)
Lemma draw_line_exact h interval total_time evals lineno line kws w :
  to_float interval ≠ 0%Qc →
  keywords (reporter w) !! Z.to_nat (lineno - 1) = Some kws →
  ∃ w', draw_line h interval total_time evals (lineno, line) w = (Done tt, w') ∧
        same_view w w' ∧
        screen w'
        = screen w ++ render_line h w interval total_time evals (lineno, line).
Proof.
  intros Hi Hkws. unfold draw_line, render_line, visible. step_call.
  cbn [fst snd]. rewrite Hkws. cbn [default].
  destruct ((0 <? lineno - scroll (reporter w))
            && (lineno - scroll (reporter w) <? h)); cbn [negb].
  2: { exists w. rewrite app_nil_r. split; [done|]. split; reflexivity. }
  step_call. erewrite bind_done by (by apply truediv_eq). cbn beta.
  step_call. erewrite bind_done by (by apply truediv_eq). cbn beta.
  do 2 step_call.
  set (y := lineno - scroll (reporter w)).
  set (w2 := set_screen _ _).
  assert (∀ pair, ∃ w',
    (addstr y 15 line pair ≫= λ _,
     kws ← get (λ w, keywords (reporter w) !! Z.to_nat (lineno - 1));
     match kws with
     | Some kws =>
         for_each kws (λ '(idx, keyword),
                         addstr y (15 + idx) keyword (Some 1))
     | None => raise IndexError
     end) w2
    = (Done tt, w') ∧ same_view w w' ∧
      screen w' = screen w2 ++ [AddStr y 15 line pair]
                  ++ (keyword_call y <$> kws)) as Hrest.
  { intros pair. do 2 step_call. subst w2. simpl_world. rewrite Hkws.
    edestruct for_each_addstr_exact as (w' & -> & Hr & Hh & Hs).
    exists w'. split; [done|]. simpl_world. split.
    - split; [done|]. intros a. rewrite Hh. simpl_world.
      etrans; apply dd_touch_grows.
    - rewrite Hs. simpl_world. by rewrite <-!app_assoc. }
  assert (screen w2
          = screen w ++ [AddStr y 1
                           (percent_text (line_part w interval total_time lineno))
                           (Some 5);
                         freq_call w interval evals lineno]) as Hw2.
  { subst w2. simpl_world. unfold freq_call. rewrite dd_touch_peek.
    by rewrite <-app_assoc. }
  unfold line_calls, emphasis. fold y.
  change (to_float (dd_peek (heap w total_time) lineno) / to_float interval
          * Qc_of_Z 100)%Qc with (line_part w interval total_time lineno).
  destruct (Qc_ltb (Qc_of_Z 20) _);
    [|destruct (Qc_ltb (Qc_of_Z 5) _)];
    edestruct Hrest as (w' & Heq & Hv & Hs); exists w'; rewrite Heq;
    (split; [done|]); (split; [done|]); rewrite Hs, Hw2, <-!app_assoc; done.
Qed.

Lemma draw_loop_exact h interval total_time evals items : ∀ w0 w,
  to_float interval ≠ 0%Qc →
  same_view w0 w →
  (∀ n line, (n, line) ∈ items →
     is_Some (keywords (reporter w0) !! Z.to_nat (n - 1))) →
  ∃ w', for_each items (draw_line h interval total_time evals) w = (Done tt, w') ∧
        same_view w0 w' ∧
        screen w'
        = screen w ++ (items ≫= render_line h w0 interval total_time evals).
Proof.
  induction items as [|[n line] items IH]; intros w0 w Hi Hview Hkws.
  - exists w. by rewrite app_nil_r.
  - destruct (Hkws n line) as [kws Hk]; [by left|].
    assert (keywords (reporter w) !! Z.to_nat (n - 1) = Some kws) as Hk'
      by (by destruct Hview as [-> _]).
    destruct (draw_line_exact h interval total_time evals n line kws w Hi Hk')
      as (w1 & Heq1 & Hv1 & Hs1).
    destruct (IH w0 w1 Hi) as (w' & Heq & Hv & Hs).
    { by etrans. }
    { intros n' line' Hin. apply (Hkws n' line'). by right. }
    exists w'. cbn [for_each]. erewrite bind_done by exact Heq1.
    split; [done|]. split; [done|].
    rewrite Hs, Hs1, (same_view_render_line h w0 w) by done.
    by rewrite <-app_assoc.
Qed.

(** A turn of the drawing loop returns when the interval is not zero and
    every line has its list of spans, and the screen then holds what
    [render] says. *)
Lemma draw_turn_screen h width w :
  to_float (data (reporter w)).1.1 ≠ 0%Qc →
  length (keywords (reporter w)) = length (lines (reporter w)) →
  ∃ w', draw_turn h width w = (Done tt, w') ∧
        screen w' = render h w ∧
        reporter w' = set_dirty false (set_height h (reporter w)).
Proof.
  intros Hi Hlen. unfold draw_turn. do 2 step_call.
  destruct (data (reporter w)) as [[interval a] b] eqn:Hdata.
  do 2 step_call.
  set (w1 := set_screen [] (set_reporter (set_height h (reporter w)) w)).
  destruct (draw_loop_exact h interval a b
              (enumerate (lines (reporter w)) 1) w1 w1 Hi)
    as (w' & Heq & [Hr _] & Hs); [reflexivity| |].
  { intros n l [Hn Hl]%enumerate_lookup. apply lookup_lt_is_Some.
    apply lookup_lt_Some in Hl. subst w1. simpl_world. lia. }
  erewrite bind_done by exact Heq.
  eexists. split; [reflexivity|]. simpl_world.
  split; [|by rewrite Hr].
  rewrite Hs. unfold render. by rewrite Hdata.
Qed.




Example render_published_once :
  render 24 published_once
  = [ AddStr 1 1 "50.0%" (Some 5); AddStr 1 7 "  0.5Hz" (Some 5);
      AddStr 1 15 "x = 1" (Some 2);
      AddStr 2 1 "" (Some 5); AddStr 2 7 "" (Some 5);
      AddStr 2 15 "y = 2" None ].
Proof. vm_compute. reflexivity. Qed.

#[export] Instance keeps_rows_preorder h : PreOrder (keeps_rows h).
Proof.
  split.
  - intros w Hw. exact Hw.
  - intros w1 w2 w3 H12 H23 H1. by apply H23, H12.
Qed.

Lemma keeps_rows_screen h w w' : screen w' = screen w → keeps_rows h w w'.
Proof. unfold keeps_rows, rows_within. by intros ->. Qed.

Lemma addstr_keeps_rows h y x text pair :
  0 < y < h → keeps (keeps_rows h) (addstr y x text pair).
Proof.
  intros Hy w Hrows c. cbn.
  intros [Hin|Hin%list_elem_of_singleton]%elem_of_app; [by apply Hrows|].
  by subst c.
Qed.

Lemma dd_getitem_keeps_rows h a k : keeps (keeps_rows h) (dd_getitem a k).
Proof. intros w. rewrite dd_getitem_eq. by apply keeps_rows_screen. Qed.

Lemma truediv_keeps_rows h x y : keeps (keeps_rows h) (truediv x y).
Proof.
  unfold truediv. apply (keeps_if (keeps_rows h)).
  - apply (keeps_raise (keeps_rows h)).
  - apply (keeps_ret (keeps_rows h)).
Qed.

Lemma draw_line_keeps_rows h interval a b item :
  keeps (keeps_rows h) (draw_line h interval a b item).
Proof.
  destruct item as [lineno line]. unfold draw_line.
  apply (keeps_bind (keeps_rows h)); [apply (keeps_get (keeps_rows h))|].
  intros sc.
  destruct (0 <? lineno - sc) eqn:H0; [destruct (lineno - sc <? h) eqn:Hh|];
    cbn [andb negb]; try apply (keeps_ret (keeps_rows h)).
  apply Z.ltb_lt in H0, Hh.
  apply (keeps_bind (keeps_rows h)); [apply dd_getitem_keeps_rows|].
  intros t. apply (keeps_bind (keeps_rows h)); [apply truediv_keeps_rows|].
  intros share. apply (keeps_bind (keeps_rows h));
    [apply dd_getitem_keeps_rows|].
  intros n. apply (keeps_bind (keeps_rows h)); [apply truediv_keeps_rows|].
  intros fr. apply (keeps_bind (keeps_rows h)); [by apply addstr_keeps_rows|].
  intros _. apply (keeps_bind (keeps_rows h)); [by apply addstr_keeps_rows|].
  intros _. apply (keeps_bind (keeps_rows h)).
  { repeat apply (keeps_if (keeps_rows h)); by apply addstr_keeps_rows. }
  intros _. apply (keeps_bind (keeps_rows h));
    [apply (keeps_get (keeps_rows h))|].
  intros [kws|]; [|apply (keeps_raise (keeps_rows h))].
  apply (keeps_for_each (keeps_rows h)). intros [idx kw].
  by apply addstr_keeps_rows.
Qed.

(** X14.  The drawing loop never writes outside the window: after a turn
    of it, whether it returned or raised, every call on the screen is on
    a row strictly between zero and the height; lines whose row
    [lineno - scroll] is not are skipped. *)
Theorem draw_turn_rows_within (h width : Z) (w : world) :
  ∀ c, c ∈ screen (snd (draw_turn h width w)) → 0 < as_y c < h.
Proof.
  unfold draw_turn. do 2 step_call.
  destruct (data (reporter w)) as [[interval a] b] eqn:Hdata.
  do 2 step_call.
  pose proof (keeps_for_each (keeps_rows h) (enumerate (lines (reporter w)) 1)
                (draw_line h interval a b)
                (draw_line_keeps_rows h interval a b)
                (set_screen [] (set_reporter (set_height h (reporter w)) w)))
    as Hloop.
  assert (rows_within h (set_screen [] (set_reporter
                                           (set_height h (reporter w)) w)))
    as Hstart by (intros c Hin; by apply elem_of_nil in Hin).
  specialize (Hloop Hstart). unfold mbind, M_bind.
  destruct (for_each _ _ _) as [[[]| |] w2]; cbn [snd] in *; exact Hloop.
Qed.

Lemma draw_turn_rows_within_witness :
  AddStr 2 15 "y = 2" None ∈ screen (snd (draw_turn 24 80 published_once)) ∧
  0 < as_y (AddStr 2 15 "y = 2" None) < 24.
Proof.
  assert (Hin : AddStr 2 15 "y = 2" None
                ∈ screen (snd (draw_turn 24 80 published_once))).
  { replace (screen (snd (draw_turn 24 80 published_once)))
      with (render 24 published_once) by (vm_compute; reflexivity).
    vm_compute render. repeat constructor. }
  split; [exact Hin|].
  exact (draw_turn_rows_within 24 80 published_once _ Hin).
Defined.

Lemma enumerate_visible_render h w interval a b items lineno line c :
  (lineno, line) ∈ items →
  visible h w lineno = true →
  c ∈ line_calls w interval a b lineno line
        (default [] (keywords (reporter w) !! Z.to_nat (lineno - 1))) →
  c ∈ items ≫= render_line h w interval a b.
Proof.
  intros Hin Hvis Hc. apply list_elem_of_bind. exists (lineno, line).
  split; [|done]. unfold render_line. cbn [fst snd]. by rewrite Hvis.
Qed.

Lemma visible_true h w lineno :
  0 < lineno - scroll (reporter w) < h → visible h w lineno = true.
Proof.
  intros [H0 Hh]. unfold visible.
  apply andb_true_iff. split; by apply Z.ltb_lt.
Qed.




Lemma to_float_default f : to_float (default_value f) = 0%Qc.
Proof. destruct f; [done|apply Z2Qc_inj_0]. Qed.

Lemma dd_peek_missing d k :
  items d !! k = None → to_float (dd_peek d k) = 0%Qc.
Proof. intros Hk. unfold dd_peek. rewrite Hk. apply to_float_default. Qed.

Lemma Qc_zero_div (x : Qc) : (0 / x = 0)%Qc.
Proof. unfold Qcdiv. apply Qcmult_0_l. Qed.

(** X17.  A visible line for which the snapshot has no entry, neither a
    time nor a count, is drawn plain: an empty share, an empty frequency,
    and its text without a colour pair. *)
Theorem draw_line_without_entry
    (w : world) (h width : Z) (L : Z) (line : string) :
  to_float (data (reporter w)).1.1 ≠ 0%Qc →
  length (keywords (reporter w)) = length (lines (reporter w)) →
  1 ≤ L →
  lines (reporter w) !! Z.to_nat (L - 1) = Some line →
  0 < L - scroll (reporter w) < h →
  items (heap w (data (reporter w)).1.2) !! L = None →
  items (heap w (data (reporter w)).2) !! L = None →
  AddStr (L - scroll (reporter w)) 1 "" (Some 5)
    ∈ screen (snd (draw_turn h width w)) ∧
  AddStr (L - scroll (reporter w)) 7 "" (Some 5)
    ∈ screen (snd (draw_turn h width w)) ∧
  AddStr (L - scroll (reporter w)) 15 line None
    ∈ screen (snd (draw_turn h width w)).
Proof.
  intros Hi Hlen HL Hline Hvis Htime Hevals.
  destruct (draw_turn_screen h width w Hi Hlen) as (w' & Heq & Hs & _).
  rewrite Heq. cbn [snd]. rewrite Hs. unfold render.
  assert ((L, line) ∈ enumerate (lines (reporter w)) 1) as Hin
    by (apply enumerate_lookup; by split).
  apply visible_true in Hvis.
  assert (line_part w (data (reporter w)).1.1 (data (reporter w)).1.2 L = 0%Qc)
    as Hpart.
  { unfold line_part. rewrite dd_peek_missing by done.
    rewrite Qc_zero_div. apply Qcmult_0_l. }
  assert (freq_call w (data (reporter w)).1.1 (data (reporter w)).2 L
          = AddStr (L - scroll (reporter w)) 7 "" (Some 5)) as Hfreq.
  { unfold freq_call. rewrite dd_peek_missing by done.
    by rewrite Qc_zero_div. }
  repeat split;
    (eapply enumerate_visible_render; [done..|]); unfold line_calls;
    rewrite Hpart, Hfreq; apply elem_of_app; left.
  - apply list_elem_of_here.
  - apply list_elem_of_further, list_elem_of_here.
  - do 2 apply list_elem_of_further. apply list_elem_of_here.
Qed.

Lemma draw_line_without_entry_witness :
  AddStr (2 - scroll (reporter published_once)) 1 "" (Some 5)
    ∈ screen (snd (draw_turn 24 80 published_once)) ∧
  AddStr (2 - scroll (reporter published_once)) 7 "" (Some 5)
    ∈ screen (snd (draw_turn 24 80 published_once)) ∧
  AddStr (2 - scroll (reporter published_once)) 15 "y = 2" None
    ∈ screen (snd (draw_turn 24 80 published_once)).
Proof.
  apply (draw_line_without_entry published_once 24 80 2 "y = 2").
  - apply Qc_eqb_ne. vm_compute. reflexivity.
  - reflexivity.
  - lia.
  - reflexivity.
  - split; reflexivity.
  - vm_compute. reflexivity.
  - vm_compute. reflexivity.
Defined.






Lemma truediv_zero x y w :
  to_float y = 0%Qc → truediv x y w = (Raised ZeroDivisionError, w).
Proof. intros Hy%Qc_eqb_eq. unfold truediv. by rewrite Hy. Qed.

Lemma draw_line_hidden h interval a b lineno line w :
  visible h w lineno = false →
  draw_line h interval a b (lineno, line) w = (Done tt, w).
Proof.
  intros Hvis. unfold draw_line, visible in *. step_call. by rewrite Hvis.
Qed.

Lemma draw_line_zero_interval h interval a b lineno line w :
  to_float interval = 0%Qc →
  visible h w lineno = true →
  ∃ w', draw_line h interval a b (lineno, line) w
        = (Raised ZeroDivisionError, w') ∧
        screen w' = screen w ∧ reporter w' = reporter w.
Proof.
  intros Hi Hvis. unfold draw_line, visible in *. step_call.
  rewrite Hvis. cbn [negb]. step_call.
  erewrite bind_raised by (by apply truediv_zero).
  by eexists.
Qed.

Lemma draw_loop_zero_interval h interval a b items : ∀ w,
  to_float interval = 0%Qc →
  (∃ lineno line, (lineno, line) ∈ items ∧ visible h w lineno = true) →
  ∃ w', for_each items (draw_line h interval a b) w
        = (Raised ZeroDivisionError, w') ∧
        screen w' = screen w ∧ reporter w' = reporter w.
Proof.
  induction items as [|[n l] items IH]; intros w Hi (lineno & line & Hin & Hvis).
  - by apply elem_of_nil in Hin.
  - cbn [for_each]. destruct (visible h w n) eqn:Hn.
    + destruct (draw_line_zero_interval h interval a b n l w Hi Hn)
        as (w' & Heq & ? & ?).
      exists w'. by erewrite bind_raised by exact Heq.
    + erewrite bind_done by (by apply draw_line_hidden).
      apply IH; [done|]. exists lineno, line. split; [|done].
      apply elem_of_cons in Hin as [[= -> ->]|Hin]; [congruence|done].
Qed.

(** X18.  The drawing loop divides by the published interval: when that
    interval is zero, as [report()] publishes it when the clock has not
    moved since the last publish, a turn of the loop with a visible line
    raises [ZeroDivisionError] before it has written anything, and the
    dirty flag stays as it was. *)
Theorem draw_turn_zero_interval
    (w : world) (h width : Z) (L : Z) (line : string) :
  to_float (data (reporter w)).1.1 = 0%Qc →
  1 ≤ L →
  lines (reporter w) !! Z.to_nat (L - 1) = Some line →
  0 < L - scroll (reporter w) < h →
  fst (draw_turn h width w) = Raised ZeroDivisionError ∧
  screen (snd (draw_turn h width w)) = [] ∧
  dirty (reporter (snd (draw_turn h width w))) = dirty (reporter w).
Proof.
  intros Hi HL Hline Hvis. unfold draw_turn. do 2 step_call.
  destruct (data (reporter w)) as [[interval a] b] eqn:Hdata.
  do 2 step_call.
  destruct (draw_loop_zero_interval h interval a b
              (enumerate (lines (reporter w)) 1)
              (set_screen [] (set_reporter (set_height h (reporter w)) w)) Hi)
    as (w' & Heq & Hs & Hr).
  { exists L, line. split; [apply enumerate_lookup; by split|].
    by apply visible_true. }
  erewrite bind_raised by exact Heq. cbn [fst snd].
  split; [done|]. split; [done|]. by rewrite Hr.
Qed.

Lemma draw_turn_zero_interval_witness :
  fst (draw_turn 24 80 published_at_once) = Raised ZeroDivisionError ∧
  screen (snd (draw_turn 24 80 published_at_once)) = [] ∧
  dirty (reporter (snd (draw_turn 24 80 published_at_once)))
  = dirty (reporter published_at_once).
Proof.
  apply (draw_turn_zero_interval published_at_once 24 80 1 "x = 1").
  - apply Qc_eqb_eq. vm_compute. reflexivity.
  - lia.
  - reflexivity.
  - split; reflexivity.
Defined.
